(** * Agent gateway: a shallow embedding of [backend/server.py]

    The FastAPI handlers of [server.py] are embedded as functions in a
    state-and-exception monad over the application state (the document
    store and the agent cache).  Everything the handlers obtain from
    outside the file (the agents, the clock, uuid4, bcrypt, the store's
    availability) is read from a [World] record, so that a statement
    quantified over worlds covers every outcome of those collaborators. *)

From stdpp Require Import gmap strings list sorting pretty.

Set Warnings "-register-all".

Local Open Scope string_scope.
Local Open Scope Z_scope.

(** ** Python values and exceptions *)

(** The values an agent may put into its free-form metadata mapping. *)
Inductive pyval :=
  | PyNone
  | PyBool (b : bool)
  | PyInt (n : Z)
  | PyStr (s : string)
  | PyList (l : list pyval)
  | PyDict (d : gmap string pyval).

(** Truth value of an object, as [or] and [if] test it. *)
Definition truthy (v : pyval) : bool :=
  match v with
  | PyNone => false
  | PyBool b => b
  | PyInt n => negb (n =? 0)
  | PyStr s => negb (String.eqb s "")
  | PyList l => match l with [] => false | _ => true end
  | PyDict d => negb (bool_decide (d = ∅))
  end.

(** [a or b] *)
Definition py_or (a b : pyval) : pyval := if truthy a then a else b.

(** [d.get(k, default)] *)
Definition dict_get (d : gmap string pyval) (k : string) (default : pyval) : pyval :=
  match d !! k with
  | Some v => v
  | None => default
  end.

(** The two exception families the handlers tell apart: FastAPI's
    [HTTPException], which the framework turns into a response with that
    status code, and every other [Exception]. *)
Inductive exn :=
  | HTTPException (status_code : Z) (detail : string)
  | Exception (msg : string).

(** [str(exc)]; Starlette prints an [HTTPException] as "status: detail". *)
Definition str (e : exn) : string :=
  match e with
  | HTTPException c d => pretty c +:+ ": " +:+ d
  | Exception m => m
  end.

(** Outcome of a computation of the server. *)
Inductive Outcome (A : Type) :=
  | Ok (a : A)
  | Raise (e : exn).
Arguments Ok {A} a.
Arguments Raise {A} e.

(** Outcome of a call into a collaborator (agent, store driver, bcrypt):
    it returns, or it throws an exception of its own, which is never a
    FastAPI [HTTPException]. *)
Inductive ext (A : Type) :=
  | Returns (a : A)
  | Throws (msg : string).
Arguments Returns {A} a.
Arguments Throws {A} msg.

Definition lift_ext {A} (x : ext A) : Outcome A :=
  match x with
  | Returns a => Ok a
  | Throws m => Raise (Exception m)
  end.

(** ** Token service: the [jwt] library

    Tokens are modelled symbolically: an encoded token is the payload
    together with the key and algorithm that signed it, and anything else
    a client may send is [Malformed].  The clock counts seconds since the
    epoch. *)

Module jwt.

Record Payload := { user_id : string; username : string; exp : Z }.

Inductive Token :=
    | Signed (payload : Payload) (key : string) (alg : string)
    | Malformed (raw : string).

  (** The library's exceptions.  [ExpiredSignatureError] is a subclass of
      [InvalidTokenError], as are all the others. *)
Inductive Error :=
    | ExpiredSignatureError
    | InvalidSignatureError
    | InvalidAlgorithmError
    | DecodeError.

Definition encode (payload : Payload) (key : string) (algorithm : string) : Token :=
    Signed payload key algorithm.

  (** Modelled from the spec: [jwt.decode] belongs to the PyJWT library,
      which is not part of the source tree.  It checks the structure, the
      algorithm and the signature against the key, then fails with the
      expiry error when the current time is at or past the encoded expiry,
      and otherwise returns the embedded payload. *)
Definition decode (now : Z) (t : Token) (key : string) (algorithms : list string)
    : Error + Payload :=
    match t with
    | Malformed _ => inl DecodeError
    | Signed p k a =>
        if negb (bool_decide (a ∈ algorithms)) then inl InvalidAlgorithmError
        else if negb (String.eqb k key) then inl InvalidSignatureError
        else if exp p <=? now then inl ExpiredSignatureError
        else inr p
    end.

End jwt.

(** ** Request and response models *)

Module UserSignup.
Record t := { username : string; email : string; password : string }.
End UserSignup.

Module UserLogin.
Record t := { username : string; password : string }.
End UserLogin.

Module AuthResponse.
Record t := {
    success : bool;
    token : option jwt.Token;
    username : option string;
    message : option string }.
End AuthResponse.

Module MotivationalChatRequest.
Record t := { message : string }.
End MotivationalChatRequest.

Module MotivationalChatResponse.
Record t := {
    success : bool;
    response : string;
    timestamp : Z;
    error : option string }.
End MotivationalChatResponse.

Module ChatMessage.
Record t := {
    id : string;
    user_id : string;
    message : string;
    response : string;
    timestamp : Z }.
End ChatMessage.

Module DailyQuoteResponse.
Record t := {
    success : bool;
    quote : string;
    timestamp : Z;
    error : option string }.
End DailyQuoteResponse.

Module ChatRequest.
Record t := {
    message : string;
    agent_type : string;
    context : option (gmap string pyval) }.
End ChatRequest.

Module ChatResponse.
Record t := {
    success : bool;
    response : string;
    agent_type : string;
    capabilities : list string;
    metadata : gmap string pyval;
    error : option string }.
End ChatResponse.

Module SearchRequest.
Record t := { query : string; max_results : Z }.
End SearchRequest.

Module SearchResponse.
Record t := {
    success : bool;
    query : string;
    summary : string;
    search_results : option (gmap string pyval);
    sources_count : Z;
    error : option string }.
End SearchResponse.

(** The two handlers that answer with a plain dict. *)
Module HistoryResponse.
Record t := {
    success : bool;
    messages : option (list ChatMessage.t);
    error : option string }.
End HistoryResponse.

Module CapabilitiesResponse.
Record t := {
    success : bool;
    search_agent : option (list string);
    chat_agent : option (list string);
    error : option string }.
End CapabilitiesResponse.

(** What an agent's [execute] returns. *)
Module AgentResponse.
Record t := {
    success : bool;
    content : string;
    metadata : option (gmap string pyval);
    error : option string }.
End AgentResponse.

(** A stored identity: a document of the [users] collection. *)
Module UserDoc.
Record t := {
    id : string;
    username : string;
    email : string;
    password : string;
    created_at : Z }.
End UserDoc.

(** ** Agents, the store and the application state *)

Inductive AgentClass := SearchAgent | ChatAgent.

(** A live agent object.  [serial] is the object's identity: two
    constructions never yield the same serial. *)
Record Agent := { agent_class : AgentClass; serial : nat }.

Record Database := {
  users : list UserDoc.t;
  chat_messages : list ChatMessage.t }.

(** [request.app.state] together with the contents of the store behind
    [app.state.db].  [db_ready] tells whether the [db] attribute is set.
    An unset [agent_cache] attribute is represented by the empty map,
    which is what [_get_agent_cache] turns it into.  [constructed] counts
    the agent objects constructed so far. *)
Record AppState := {
  db_ready : bool;
  database : Database;
  agent_cache : gmap string Agent;
  constructed : nat }.

(** The store operations a handler awaits. *)
Inductive StoreOp :=
  | UsersFindByUsername
  | UsersFindByEmail
  | UsersInsertOne
  | ChatMessagesInsertOne
  | ChatMessagesFind.

(** Everything a request reads from outside [server.py]. *)
Record World := {
  JWT_SECRET : string;
  (** [datetime.now(timezone.utc).timestamp()] *)
  now : Z;
  (** [str(uuid.uuid4())] *)
  uuid4 : string;
  (** [bcrypt.hashpw(password, bcrypt.gensalt())] *)
  bcrypt_hashpw : string -> ext string;
  (** [bcrypt.checkpw(password, hashed)] *)
  bcrypt_checkpw : string -> string -> ext bool;
  (** [await agent.execute(prompt, use_tools=...)] *)
  execute : Agent -> string -> bool -> ext AgentResponse.t;
  (** [agent.get_capabilities()] *)
  get_capabilities : Agent -> ext (list string);
  (** the failure, if any, with which the store answers an operation *)
  store_fault : StoreOp -> option string;
  (** [int(s)] on strings: the integer a string spells, if it spells one *)
  int_of_str : string -> option Z;
  (** the message of the exception [int(v)] raises on [v] *)
  int_error : pyval -> string;
  (** the message of pydantic's validation error for a field *)
  validation_error : string -> string }.

Definition JWT_ALGORITHM : string := "HS256".

(** ** The monad of a request: application state and exceptions *)

Definition M (A : Type) : Type := AppState -> Outcome A * AppState.

Definition ret {A} (a : A) : M A := fun st => (Ok a, st).

Definition raise {A} (e : exn) : M A := fun st => (Raise e, st).

Definition bind {A B} (m : M A) (k : A -> M B) : M B :=
  fun st =>
    match m st with
    | (Ok a, st') => k a st'
    | (Raise e, st') => (Raise e, st')
    end.

Notation "'let!' x ':=' c 'in' k" := (bind c (fun x => k))
  (at level 10, x name, c at level 100, k at level 200).
Notation "'run!' c 'in' k" := (bind c (fun _ => k))
  (at level 10, c at level 100, k at level 200).

(** A call into a collaborator. *)
Definition call {A} (x : ext A) : M A := fun st => (lift_ext x, st).

(** [try: body  except ... as exc: handler exc] *)
Definition try_except {A} (body : M A) (handler : exn -> M A) : M A :=
  fun st =>
    match body st with
    | (Ok a, st') => (Ok a, st')
    | (Raise e, st') => handler e st'
    end.

(** [except Exception as exc: return f(exc)]; an [HTTPException] is an
    [Exception] and is caught as well. *)
Definition except_Exception {A} (f : exn -> A) (e : exn) : M A := ret (f e).

(** [except HTTPException: raise] followed by
    [except Exception as exc: return f(exc)]. *)
Definition except_HTTPException_raise {A} (f : exn -> A) (e : exn) : M A :=
  match e with
  | HTTPException _ _ => raise e
  | Exception _ => ret (f e)
  end.

Definition set_database (d : Database) (st : AppState) : AppState :=
  {| db_ready := db_ready st; database := d;
     agent_cache := agent_cache st; constructed := constructed st |}.

(** ** The store driver *)

(** An awaited store operation: it fails with the world's fault for that
    operation, or runs [f] on the contents of the store. *)
Definition store_call {A} (w : World) (op : StoreOp)
    (f : Database -> A * Database) : M A :=
  fun st =>
    match store_fault w op with
    | Some m => (Raise (Exception m), st)
    | None => let '(a, d) := f (database st) in (Ok a, set_database d st)
    end.

(** [db.users.find_one({field: value})]: the first matching document. *)
Definition users_find_one (w : World) (op : StoreOp)
    (field : UserDoc.t -> string) (value : string) : M (option UserDoc.t) :=
  store_call w op
    (fun d => (List.find (fun doc => String.eqb (field doc) value) (users d), d)).

(** [db.users.insert_one(doc)] *)
Definition users_insert_one (w : World) (doc : UserDoc.t) : M unit :=
  store_call w UsersInsertOne
    (fun d => (tt, {| users := users d ++ [doc]; chat_messages := chat_messages d |})).

(** [db.chat_messages.insert_one(doc)] *)
Definition chat_messages_insert_one (w : World) (doc : ChatMessage.t) : M unit :=
  store_call w ChatMessagesInsertOne
    (fun d => (tt, {| users := users d; chat_messages := chat_messages d ++ [doc] |})).

(** The order of [sort("timestamp", -1)]: [a] may come before [b]. *)
Definition newest_first (a b : ChatMessage.t) : Prop :=
  ChatMessage.timestamp b <= ChatMessage.timestamp a.

#[global] Instance newest_first_dec a b : Decision (newest_first a b).
Proof. unfold newest_first. apply _. Defined.

(** [db.chat_messages.find({"user_id": uid}).sort("timestamp", -1)
    .limit(n).to_list(k)] *)
Definition chat_messages_find (w : World) (uid : string) (n k : nat)
    : M (list ChatMessage.t) :=
  store_call w ChatMessagesFind
    (fun d =>
       (take k (take n (merge_sort newest_first
          (filter (fun m => ChatMessage.user_id m = uid) (chat_messages d)))), d)).

(** ** Helpers of [server.py] *)

Definition _ensure_db : M unit :=
  fun st =>
    if db_ready st then (Ok tt, st)
    else (Raise (HTTPException 503 "Database not ready"), st).

Definition _hash_password (w : World) (password : string) : M string :=
  call (bcrypt_hashpw w password).

Definition _verify_password (w : World) (password hashed : string) : M bool :=
  call (bcrypt_checkpw w password hashed).

Definition _create_token (w : World) (user_id username : string) : jwt.Token :=
  let payload :=
    {| jwt.user_id := user_id;
       jwt.username := username;
       jwt.exp := now w + 86400 * 7 |} in
  jwt.encode payload (JWT_SECRET w) JWT_ALGORITHM.

(** [security = HTTPBearer()]: a request without bearer credentials is
    rejected by the framework with 403 before the dependency runs (the
    repository's test of unauthorized access expects that status). *)
Definition security (credentials : option jwt.Token) : Outcome jwt.Token :=
  match credentials with
  | Some t => Ok t
  | None => Raise (HTTPException 403 "Not authenticated")
  end.

(** The two [except] clauses are tried in order; every error of the
    library other than the expiry error reaches the second one. *)
Definition _get_current_user (w : World) (token : jwt.Token) : Outcome jwt.Payload :=
  match jwt.decode (now w) token (JWT_SECRET w) [JWT_ALGORITHM] with
  | inr payload => Ok payload
  | inl jwt.ExpiredSignatureError => Raise (HTTPException 401 "Token expired")
  | inl _ => Raise (HTTPException 401 "Invalid token")
  end.

(** [Depends(_get_current_user)], with its own dependency on [security]. *)
Definition authenticate (w : World) (credentials : option jwt.Token)
    : Outcome jwt.Payload :=
  match security credentials with
  | Ok t => _get_current_user w t
  | Raise e => Raise e
  end.

Definition current_user_dependency (w : World) (credentials : option jwt.Token)
    : M jwt.Payload :=
  fun st => (authenticate w credentials, st).

Definition _get_agent_cache : M (gmap string Agent) :=
  fun st => (Ok (agent_cache st), st).

(** [cache[agent_type] = cls(config)]: construct an agent object and store
    it under the tag. *)
Definition construct_into_cache (cls : AgentClass) (agent_type : string) : M unit :=
  fun st =>
    let a := {| agent_class := cls; serial := constructed st |} in
    (Ok tt,
     {| db_ready := db_ready st; database := database st;
        agent_cache := <[agent_type := a]> (agent_cache st);
        constructed := S (constructed st) |}).

(** [return cache[agent_type]] *)
Definition cache_item (agent_type : string) : M Agent :=
  fun st =>
    match agent_cache st !! agent_type with
    | Some a => (Ok a, st)
    | None => (Raise (Exception ("KeyError: " +:+ agent_type)), st)
    end.

Definition _get_or_create_agent (agent_type : string) : M Agent :=
  let! cache := _get_agent_cache in
  match cache !! agent_type with
  | Some a => ret a
  | None =>
      run! (if String.eqb agent_type "search" then
              construct_into_cache SearchAgent agent_type
            else if String.eqb agent_type "chat" then
              construct_into_cache ChatAgent agent_type
            else
              raise (HTTPException 400
                       ("Unknown agent type '" +:+ agent_type +:+ "'"))) in
      cache_item agent_type
  end.

(** ** The route handlers *)

(** The line feed that separates the lines of the prompt templates. *)
Definition NL : string :=
  String (Ascii.Ascii false true false true false false false false) "".

Definition signup (w : World) (user : UserSignup.t) : M AuthResponse.t :=
  try_except
    (run! _ensure_db in
     let! existing_user :=
       users_find_one w UsersFindByUsername UserDoc.username (UserSignup.username user) in
     match existing_user with
     | Some _ =>
         ret {| AuthResponse.success := false; AuthResponse.token := None;
                AuthResponse.username := None;
                AuthResponse.message := Some "Username already exists" |}
     | None =>
         let! existing_email :=
           users_find_one w UsersFindByEmail UserDoc.email (UserSignup.email user) in
         match existing_email with
         | Some _ =>
             ret {| AuthResponse.success := false; AuthResponse.token := None;
                    AuthResponse.username := None;
                    AuthResponse.message := Some "Email already exists" |}
         | None =>
             let user_id := uuid4 w in
             let! hashed := _hash_password w (UserSignup.password user) in
             let user_doc :=
               {| UserDoc.id := user_id;
                  UserDoc.username := UserSignup.username user;
                  UserDoc.email := UserSignup.email user;
                  UserDoc.password := hashed;
                  UserDoc.created_at := now w |} in
             run! users_insert_one w user_doc in
             let token := _create_token w user_id (UserSignup.username user) in
             ret {| AuthResponse.success := true; AuthResponse.token := Some token;
                    AuthResponse.username := Some (UserSignup.username user);
                    AuthResponse.message := Some "Account created successfully" |}
         end
     end)
    (except_Exception
       (fun exc =>
          {| AuthResponse.success := false; AuthResponse.token := None;
             AuthResponse.username := None;
             AuthResponse.message := Some (str exc) |})).

Definition invalid_login : AuthResponse.t :=
  {| AuthResponse.success := false; AuthResponse.token := None;
     AuthResponse.username := None;
     AuthResponse.message := Some "Invalid username or password" |}.

Definition login (w : World) (user : UserLogin.t) : M AuthResponse.t :=
  try_except
    (run! _ensure_db in
     let! user_doc :=
       users_find_one w UsersFindByUsername UserDoc.username (UserLogin.username user) in
     match user_doc with
     | None => ret invalid_login
     | Some doc =>
         let! verified :=
           _verify_password w (UserLogin.password user) (UserDoc.password doc) in
         if negb verified then ret invalid_login
         else
           let token := _create_token w (UserDoc.id doc) (UserDoc.username doc) in
           ret {| AuthResponse.success := true; AuthResponse.token := Some token;
                  AuthResponse.username := Some (UserDoc.username doc);
                  AuthResponse.message := Some "Login successful" |}
     end)
    (except_Exception
       (fun exc =>
          {| AuthResponse.success := false; AuthResponse.token := None;
             AuthResponse.username := None;
             AuthResponse.message := Some (str exc) |})).

Definition motivational_prompt (message : string) : string :=
  "You are a supportive and encouraging AI companion designed to provide motivation and positivity."
  +:+ NL +:+
  "Your goal is to uplift users with positive encouragement, practical advice, and daily motivation."
  +:+ NL +:+
  "Be empathetic, understanding, and always maintain an optimistic yet realistic tone."
  +:+ NL +:+
  "Keep responses concise but meaningful."
  +:+ NL +:+ NL +:+
  "User message: " +:+ message.

Definition motivational_chat (w : World) (chat_req : MotivationalChatRequest.t)
    (current_user : jwt.Payload) : M MotivationalChatResponse.t :=
  try_except
    (run! _ensure_db in
     let! agent := _get_or_create_agent "chat" in
     let! result :=
       call (execute w agent
               (motivational_prompt (MotivationalChatRequest.message chat_req)) false) in
     if negb (AgentResponse.success result) then
       ret {| MotivationalChatResponse.success := false;
              MotivationalChatResponse.response := "";
              MotivationalChatResponse.timestamp := now w;
              MotivationalChatResponse.error := AgentResponse.error result |}
     else
       let chat_message :=
         {| ChatMessage.id := uuid4 w;
            ChatMessage.user_id := jwt.user_id current_user;
            ChatMessage.message := MotivationalChatRequest.message chat_req;
            ChatMessage.response := AgentResponse.content result;
            ChatMessage.timestamp := now w |} in
       run! chat_messages_insert_one w chat_message in
       ret {| MotivationalChatResponse.success := true;
              MotivationalChatResponse.response := AgentResponse.content result;
              MotivationalChatResponse.timestamp := now w;
              MotivationalChatResponse.error := None |})
    (except_HTTPException_raise
       (fun exc =>
          {| MotivationalChatResponse.success := false;
             MotivationalChatResponse.response := "";
             MotivationalChatResponse.timestamp := now w;
             MotivationalChatResponse.error := Some (str exc) |})).

(** The stored documents are the dumps of [ChatMessage] objects, so that
    rebuilding a [ChatMessage] from each document yields the record as it
    was written. *)
Definition get_chat_history (w : World) (current_user : jwt.Payload)
    : M HistoryResponse.t :=
  try_except
    (run! _ensure_db in
     let! messages := chat_messages_find w (jwt.user_id current_user) 50 50 in
     ret {| HistoryResponse.success := true;
            HistoryResponse.messages := Some messages;
            HistoryResponse.error := None |})
    (except_HTTPException_raise
       (fun exc =>
          {| HistoryResponse.success := false;
             HistoryResponse.messages := None;
             HistoryResponse.error := Some (str exc) |})).

Definition quote_prompt : string :=
  "Generate a single inspiring and motivational quote."
  +:+ NL +:+
  "It should be uplifting, positive, and encouraging."
  +:+ NL +:+
  "Format: Just the quote itself, no attribution needed. Keep it concise and impactful.".

Definition get_daily_quote (w : World) (current_user : jwt.Payload)
    : M DailyQuoteResponse.t :=
  try_except
    (let! agent := _get_or_create_agent "chat" in
     let! result := call (execute w agent quote_prompt false) in
     if negb (AgentResponse.success result) then
       ret {| DailyQuoteResponse.success := false;
              DailyQuoteResponse.quote := "";
              DailyQuoteResponse.timestamp := now w;
              DailyQuoteResponse.error := AgentResponse.error result |}
     else
       ret {| DailyQuoteResponse.success := true;
              DailyQuoteResponse.quote := AgentResponse.content result;
              DailyQuoteResponse.timestamp := now w;
              DailyQuoteResponse.error := None |})
    (except_HTTPException_raise
       (fun exc =>
          {| DailyQuoteResponse.success := false;
             DailyQuoteResponse.quote := "";
             DailyQuoteResponse.timestamp := now w;
             DailyQuoteResponse.error := Some (str exc) |})).

(** Validation of the [metadata: dict] field of [ChatResponse]: [None] is
    not a dict. *)
Definition validate_metadata (w : World) (m : option (gmap string pyval))
    : M (gmap string pyval) :=
  match m with
  | Some d => ret d
  | None => raise (Exception (validation_error w "metadata"))
  end.

Definition chat_with_agent (w : World) (chat_request : ChatRequest.t)
    : M ChatResponse.t :=
  try_except
    (let! agent := _get_or_create_agent (ChatRequest.agent_type chat_request) in
     let! response := call (execute w agent (ChatRequest.message chat_request) false) in
     let! capabilities := call (get_capabilities w agent) in
     let! metadata := validate_metadata w (AgentResponse.metadata response) in
     ret {| ChatResponse.success := AgentResponse.success response;
            ChatResponse.response := AgentResponse.content response;
            ChatResponse.agent_type := ChatRequest.agent_type chat_request;
            ChatResponse.capabilities := capabilities;
            ChatResponse.metadata := metadata;
            ChatResponse.error := AgentResponse.error response |})
    (except_HTTPException_raise
       (fun exc =>
          {| ChatResponse.success := false;
             ChatResponse.response := "";
             ChatResponse.agent_type := ChatRequest.agent_type chat_request;
             ChatResponse.capabilities := [];
             ChatResponse.metadata := ∅;
             ChatResponse.error := Some (str exc) |})).

(** [int(v)] *)
Definition py_int (w : World) (v : pyval) : M Z :=
  match v with
  | PyInt n => ret n
  | PyBool b => ret (if b then 1 else 0)
  | PyStr s =>
      match int_of_str w s with
      | Some n => ret n
      | None => raise (Exception (int_error w v))
      end
  | PyNone | PyList _ | PyDict _ => raise (Exception (int_error w v))
  end.

(** [result.metadata or {}] *)
Definition metadata_or_empty (m : option (gmap string pyval)) : gmap string pyval :=
  match m with
  | Some d => if bool_decide (d = ∅) then ∅ else d
  | None => ∅
  end.

Definition search_prompt (query : string) : string :=
  "Search for information about: " +:+ query +:+ ". "
  +:+ "Provide a comprehensive summary with key findings.".

Definition search_and_summarize (w : World) (search_request : SearchRequest.t)
    : M SearchResponse.t :=
  try_except
    (let! search_agent := _get_or_create_agent "search" in
     let! result :=
       call (execute w search_agent
               (search_prompt (SearchRequest.query search_request)) true) in
     if AgentResponse.success result then
       let metadata := metadata_or_empty (AgentResponse.metadata result) in
       let! sources_count :=
         py_int w
           (py_or (dict_get metadata "tool_run_count"
                     (dict_get metadata "tools_used" (PyInt 0)))
                  (PyInt 0)) in
       ret {| SearchResponse.success := true;
              SearchResponse.query := SearchRequest.query search_request;
              SearchResponse.summary := AgentResponse.content result;
              SearchResponse.search_results := Some metadata;
              SearchResponse.sources_count := sources_count;
              SearchResponse.error := None |}
     else
       ret {| SearchResponse.success := false;
              SearchResponse.query := SearchRequest.query search_request;
              SearchResponse.summary := "";
              SearchResponse.search_results := None;
              SearchResponse.sources_count := 0;
              SearchResponse.error := AgentResponse.error result |})
    (except_HTTPException_raise
       (fun exc =>
          {| SearchResponse.success := false;
             SearchResponse.query := SearchRequest.query search_request;
             SearchResponse.summary := "";
             SearchResponse.search_results := None;
             SearchResponse.sources_count := 0;
             SearchResponse.error := Some (str exc) |})).

Definition get_agent_capabilities (w : World) : M CapabilitiesResponse.t :=
  try_except
    (let! search_agent := _get_or_create_agent "search" in
     let! chat_agent := _get_or_create_agent "chat" in
     let! search_caps := call (get_capabilities w search_agent) in
     let! chat_caps := call (get_capabilities w chat_agent) in
     ret {| CapabilitiesResponse.success := true;
            CapabilitiesResponse.search_agent := Some search_caps;
            CapabilitiesResponse.chat_agent := Some chat_caps;
            CapabilitiesResponse.error := None |})
    (except_HTTPException_raise
       (fun exc =>
          {| CapabilitiesResponse.success := false;
             CapabilitiesResponse.search_agent := None;
             CapabilitiesResponse.chat_agent := None;
             CapabilitiesResponse.error := Some (str exc) |})).

(** ** The HTTP boundary *)

(** The domain operations and what a client sends with each. *)
Inductive Request :=
  | Signup (user : UserSignup.t)
  | Login (user : UserLogin.t)
  | CompanionChat (credentials : option jwt.Token) (chat_req : MotivationalChatRequest.t)
  | DailyQuote (credentials : option jwt.Token)
  | ChatHistory (credentials : option jwt.Token)
  | AgentChat (chat_request : ChatRequest.t)
  | Search (search_request : SearchRequest.t)
  | Capabilities.

Inductive Body :=
  | AuthBody (b : AuthResponse.t)
  | MotivationalChatBody (b : MotivationalChatResponse.t)
  | DailyQuoteBody (b : DailyQuoteResponse.t)
  | HistoryBody (b : HistoryResponse.t)
  | ChatBody (b : ChatResponse.t)
  | SearchBody (b : SearchResponse.t)
  | CapabilitiesBody (b : CapabilitiesResponse.t).

(** What the client receives: status 200 with a body, or the status code
    and detail of an error response. *)
Inductive HttpResponse :=
  | Http200 (body : Body)
  | HttpError (status_code : Z) (detail : string).

(** The framework's treatment of a handler's outcome: a returned value is
    sent with status 200, an [HTTPException] with its own status, and any
    other exception as 500. *)
Definition respond {A} (wrap : A -> Body) (o : Outcome A) : HttpResponse :=
  match o with
  | Ok a => Http200 (wrap a)
  | Raise (HTTPException c d) => HttpError c d
  | Raise (Exception _) => HttpError 500 "Internal Server Error"
  end.

Definition endpoint {A} (wrap : A -> Body) (m : M A) (st : AppState)
    : HttpResponse * AppState :=
  let '(o, st') := m st in (respond wrap o, st').

(** The router: dependencies are resolved first, then the handler runs. *)
Definition handle (w : World) (req : Request) : AppState -> HttpResponse * AppState :=
  match req with
  | Signup user => endpoint AuthBody (signup w user)
  | Login user => endpoint AuthBody (login w user)
  | CompanionChat credentials chat_req =>
      endpoint MotivationalChatBody
        (let! current_user := current_user_dependency w credentials in
         motivational_chat w chat_req current_user)
  | DailyQuote credentials =>
      endpoint DailyQuoteBody
        (let! current_user := current_user_dependency w credentials in
         get_daily_quote w current_user)
  | ChatHistory credentials =>
      endpoint HistoryBody
        (let! current_user := current_user_dependency w credentials in
         get_chat_history w current_user)
  | AgentChat chat_request => endpoint ChatBody (chat_with_agent w chat_request)
  | Search search_request => endpoint SearchBody (search_and_summarize w search_request)
  | Capabilities => endpoint CapabilitiesBody (get_agent_capabilities w)
  end.

(** The [success] flag of a body and its primary content field. *)
Definition body_success (b : Body) : bool :=
  match b with
  | AuthBody r => AuthResponse.success r
  | MotivationalChatBody r => MotivationalChatResponse.success r
  | DailyQuoteBody r => DailyQuoteResponse.success r
  | HistoryBody r => HistoryResponse.success r
  | ChatBody r => ChatResponse.success r
  | SearchBody r => SearchResponse.success r
  | CapabilitiesBody r => CapabilitiesResponse.success r
  end.

(** The requests served one after the other, each in its own world. *)
Fixpoint serve_all (reqs : list (World * Request)) (st : AppState) : AppState :=
  match reqs with
  | [] => st
  | (w, req) :: rest => serve_all rest (snd (handle w req st))
  end.

(** The bearer credentials of an identity-scoped operation. *)
Definition credentials_of (req : Request) : option (option jwt.Token) :=
  match req with
  | CompanionChat c _ | DailyQuote c | ChatHistory c => Some c
  | _ => None
  end.


(** Every agent object ever constructed sits in the cache under its own
    tag: as many constructions as cached tags. *)
Definition one_handle_per_tag (st : AppState) : Prop :=
  size (agent_cache st) = constructed st.

(** The state after constructing an agent of class [cls] under [tag]. *)
Definition constructed_state (cls : AgentClass) (tag : string) (st : AppState)
    : AppState :=
  {| db_ready := db_ready st; database := database st;
     agent_cache :=
       <[tag := {| agent_class := cls; serial := constructed st |}]> (agent_cache st);
     constructed := S (constructed st) |}.

(** The class the code constructs for a tag. *)
Definition class_of_tag (tag : string) : option AgentClass :=
  if String.eqb tag "search" then Some SearchAgent
  else if String.eqb tag "chat" then Some ChatAgent
  else None.

(** What a computation may do to the application state: the [db]
    attribute stays as it is, cached agents stay in place, and every
    construction fills a tag that was empty. *)
Definition grows (st st' : AppState) : Prop :=
  db_ready st' = db_ready st
  /\ (forall t a, agent_cache st !! t = Some a -> agent_cache st' !! t = Some a)
  /\ (one_handle_per_tag st -> one_handle_per_tag st').

Definition keeps_cache {A} (m : M A) : Prop := forall st, grows st (snd (m st)).

(** The operations that consult the store through [_ensure_db] and let
    its [HTTPException] through. *)
Definition store_guarded (req : Request) : bool :=
  match req with
  | CompanionChat _ _ | ChatHistory _ => true
  | _ => false
  end.

(** The three ways in which an operation answers with a status code of
    its own instead of a body. *)
Inductive transport_failure (w : World) (st : AppState)
    : Request -> Z -> string -> Prop :=
  | authentication_failure req credentials status detail :
      credentials_of req = Some credentials ->
      authenticate w credentials = Raise (HTTPException status detail) ->
      transport_failure w st req status detail
  | unknown_agent_type chat_request :
      agent_cache st !! ChatRequest.agent_type chat_request = None ->
      class_of_tag (ChatRequest.agent_type chat_request) = None ->
      transport_failure w st (AgentChat chat_request) 400
        ("Unknown agent type '" +:+ ChatRequest.agent_type chat_request +:+ "'")
  | database_not_ready req credentials current_user :
      store_guarded req = true ->
      credentials_of req = Some credentials ->
      authenticate w credentials = Ok current_user ->
      db_ready st = false ->
      transport_failure w st req 503 "Database not ready".

(** The agent invocation an operation makes once it is past
    authentication and the store guard: the agent the cache resolves for
    the operation's tag, run on the operation's prompt. *)
Definition agent_invocation (w : World) (req : Request) (st : AppState)
    : option (ext AgentResponse.t) :=
  let invoke tag prompt use_tools :=
    match fst (_get_or_create_agent tag st) with
    | Ok agent => Some (execute w agent prompt use_tools)
    | Raise _ => None
    end in
  match req with
  | CompanionChat _ chat_req =>
      invoke "chat"
        (motivational_prompt (MotivationalChatRequest.message chat_req)) false
  | DailyQuote _ => invoke "chat" quote_prompt false
  | Search search_request =>
      invoke "search" (search_prompt (SearchRequest.query search_request)) true
  | AgentChat chat_request =>
      invoke (ChatRequest.agent_type chat_request)
        (ChatRequest.message chat_request) false
  | _ => None
  end.

(** The primary content field of a body, for the operations that have one. *)
Definition primary_content (b : Body) : option string :=
  match b with
  | MotivationalChatBody r => Some (MotivationalChatResponse.response r)
  | DailyQuoteBody r => Some (DailyQuoteResponse.quote r)
  | ChatBody r => Some (ChatResponse.response r)
  | SearchBody r => Some (SearchResponse.summary r)
  | _ => None
  end.

(** The error string of a body. *)
Definition body_error (b : Body) : option string :=
  match b with
  | AuthBody r => AuthResponse.message r
  | MotivationalChatBody r => MotivationalChatResponse.error r
  | DailyQuoteBody r => DailyQuoteResponse.error r
  | HistoryBody r => HistoryResponse.error r
  | ChatBody r => ChatResponse.error r
  | SearchBody r => SearchResponse.error r
  | CapabilitiesBody r => CapabilitiesResponse.error r
  end.


(** The state the lifespan handler establishes before the first request:
    the [db] attribute set, an empty agent cache. *)
Definition lifespan_state (d : Database) : AppState :=
  {| db_ready := true; database := d; agent_cache := ∅; constructed := 0 |}.

(** The entry of an agent result's metadata that reports how many tool
    invocations were made: the one under "tool_run_count", or else the one
    under "tools_used". *)
Definition reported_entry (res : AgentResponse.t) : option pyval :=
  match AgentResponse.metadata res with
  | None => None
  | Some md =>
      match md !! "tool_run_count" with
      | Some v => Some v
      | None => md !! "tools_used"
      end
  end.

(** The number an entry stands for, when it is numeric: an integer, a
    boolean (a subclass of int), or non-empty text that spells an integer. *)
Definition numeric_value (w : World) (v : pyval) : option Z :=
  match v with
  | PyInt n => Some n
  | PyBool b => Some (if b then 1 else 0)
  | PyStr s => if String.eqb s "" then None else int_of_str w s
  | PyNone | PyList _ | PyDict _ => None
  end.

(** The timestamps of the records an identity owns. *)
Definition owned_timestamps (uid : string) (d : Database) : list Z :=
  ChatMessage.timestamp <$>
    filter (fun m => ChatMessage.user_id m = uid) (chat_messages d).

(** Strictly newer. *)
Definition strictly_newer (a b : ChatMessage.t) : Prop :=
  ChatMessage.timestamp b < ChatMessage.timestamp a.

(** ** Sample worlds and states

    Concrete collaborators on which the handlers can be evaluated. *)

Definition sample_agent_response : AgentResponse.t :=
  {| AgentResponse.success := true;
     AgentResponse.content := "You can do it";
     AgentResponse.metadata := Some {[ "tool_run_count" := PyInt 3 ]};
     AgentResponse.error := None |}.

(** A world at time [t] whose agents answer [answer] and whose store
    fails as [fault] says. *)
Definition make_world (t : Z) (answer : ext AgentResponse.t)
    (fault : StoreOp -> option string) : World :=
  {| JWT_SECRET := "test-secret";
     now := t;
     uuid4 := "id-1";
     bcrypt_hashpw := fun p => Returns ("hash:" +:+ p);
     bcrypt_checkpw := fun p h => Returns (String.eqb ("hash:" +:+ p) h);
     execute := fun _ _ _ => answer;
     get_capabilities := fun _ => Returns ["chat"];
     store_fault := fault;
     int_of_str := fun _ => None;
     int_error := fun _ => "invalid literal for int()";
     validation_error := fun f => "validation error: " +:+ f |}.

Definition no_fault (op : StoreOp) : option string := None.

Definition sample_world : World :=
  make_world 1000 (Returns sample_agent_response) no_fault.

(** The sample world at another time. *)
Definition world_at (t : Z) : World :=
  make_world t (Returns sample_agent_response) no_fault.

Definition initial_state : AppState :=
  lifespan_state {| users := []; chat_messages := [] |}.



(** A world whose search agent reports a counter that is not a number. *)
Definition odd_counter_response : AgentResponse.t :=
  {| AgentResponse.success := true;
     AgentResponse.content := "summary";
     AgentResponse.metadata := Some {[ "tool_run_count" := PyStr "many" ]};
     AgentResponse.error := None |}.

Definition odd_counter_world : World :=
  make_world 1000 (Returns odd_counter_response) no_fault.

Definition unknown_type_request : Request :=
  AgentChat {| ChatRequest.message := "hello";
               ChatRequest.agent_type := "math";
               ChatRequest.context := None |}.

Definition sample_search_request : Request :=
  Search {| SearchRequest.query := "rocq"; SearchRequest.max_results := 5 |}.

(** A token the sample world issues, and a companion-chat request that
    carries it. *)
Definition sample_token : jwt.Token := _create_token sample_world "id-1" "alice".

Definition sample_chat_request : Request :=
  CompanionChat (Some sample_token)
    {| MotivationalChatRequest.message := "I'm feeling down today" |}.

(** The sample world with a history store that rejects the append. *)
Definition append_failing_world : World :=
  make_world 1000 (Returns sample_agent_response)
    (fun op =>
       match op with
       | ChatMessagesInsertOne => Some "store unavailable"
       | _ => None
       end).

(** The sample world with an agent that raises instead of answering. *)
Definition agent_raising_world : World :=
  make_world 1000 (Throws "store unavailable") no_fault.

Definition sample_signup : UserSignup.t :=
  {| UserSignup.username := "alice";
     UserSignup.email := "alice@example.com";
     UserSignup.password := "testpass123" |}.

(** A store with one identity and three conversation records. *)
Definition alice_doc : UserDoc.t :=
  {| UserDoc.id := "id-1";
     UserDoc.username := "alice";
     UserDoc.email := "alice@example.com";
     UserDoc.password := "hash:testpass123";
     UserDoc.created_at := 900 |}.

Definition record (owner : string) (t : Z) : ChatMessage.t :=
  {| ChatMessage.id := "m";
     ChatMessage.user_id := owner;
     ChatMessage.message := "hello";
     ChatMessage.response := "hi";
     ChatMessage.timestamp := t |}.

Definition populated_state : AppState :=
  lifespan_state
    {| users := [alice_doc];
       chat_messages := [record "id-1" 910; record "id-9" 920; record "id-1" 930] |}.

Definition unknown_login : UserLogin.t :=
  {| UserLogin.username := "bob"; UserLogin.password := "testpass123" |}.

Definition wrong_password_login : UserLogin.t :=
  {| UserLogin.username := "alice"; UserLogin.password := "letmein" |}.

(** ** Startup and the status endpoints *)

(** [not value] for a value read from the environment. *)
Definition not_set (value : option string) : bool :=
  match value with
  | None => true
  | Some s => String.eqb s ""
  end.

(** [sep.join(l)] *)
Fixpoint join (sep : string) (l : list string) : string :=
  match l with
  | [] => ""
  | [x] => x
  | x :: rest => x +:+ sep +:+ join sep rest
  end.

(** The names of the required variables that have no value. *)
Definition missing_variables (mongo_url db_name : option string) : list string :=
  fst <$> filter (fun item => not_set (snd item) = true)
            [("MONGO_URL", mongo_url); ("DB_NAME", db_name)].

(** The startup half of [lifespan]: [d] is what the database named
    [db_name] holds when the client connects. *)
Definition lifespan (mongo_url db_name : option string) (d : Database)
    : Outcome AppState :=
  if not_set mongo_url || not_set db_name then
    Raise (Exception ("Missing required environment variables: "
                      +:+ join ", " (missing_variables mongo_url db_name)))
  else Ok (lifespan_state d).

Module StatusCheckCreate.
Record t := { client_name : string }.
End StatusCheckCreate.

Module StatusCheck.
Record t := { id : string; client_name : string; timestamp : Z }.
End StatusCheck.

(** [create_status_check]: the [status_checks] collection is threaded
    beside the application state, and [fault] is the failure, if any, with
    which the store answers the insertion. *)
Definition create_status_check (w : World) (fault : option string)
    (input : StatusCheckCreate.t) (st : AppState) (status_checks : list StatusCheck.t)
    : Outcome StatusCheck.t * list StatusCheck.t :=
  match fst (_ensure_db st) with
  | Raise e => (Raise e, status_checks)
  | Ok _ =>
      let status_obj :=
        {| StatusCheck.id := uuid4 w;
           StatusCheck.client_name := StatusCheckCreate.client_name input;
           StatusCheck.timestamp := now w |} in
      match fault with
      | Some m => (Raise (Exception m), status_checks)
      | None => (Ok status_obj, (status_checks ++ [status_obj])%list)
      end
  end.

(** [get_status_checks]: [find().to_list(1000)]. *)
Definition get_status_checks (fault : option string) (st : AppState)
    (status_checks : list StatusCheck.t) : Outcome (list StatusCheck.t) :=
  match fst (_ensure_db st) with
  | Raise e => Raise e
  | Ok _ =>
      match fault with
      | Some m => Raise (Exception m)
      | None => Ok (take 1000 status_checks)
      end
  end.

(** The status code the framework sends for a handler's outcome. *)
Definition status_code {A} (o : Outcome A) : Z :=
  match o with
  | Ok _ => 200
  | Raise (HTTPException c _) => c
  | Raise (Exception _) => 500
  end.

(** ** Effects of a request on the store and on the cache *)

(** The identity document a signup writes. *)
Definition new_user_doc (w : World) (user : UserSignup.t) (hashed : string)
    : UserDoc.t :=
  {| UserDoc.id := uuid4 w;
     UserDoc.username := UserSignup.username user;
     UserDoc.email := UserSignup.email user;
     UserDoc.password := hashed;
     UserDoc.created_at := now w |}.

(** The conversation record a companion chat writes. *)
Definition new_chat_message (w : World) (owner message response : string)
    : ChatMessage.t :=
  {| ChatMessage.id := uuid4 w;
     ChatMessage.user_id := owner;
     ChatMessage.message := message;
     ChatMessage.response := response;
     ChatMessage.timestamp := now w |}.

(** What serving a request may do to the contents of the store: nothing,
    or the one insertion of a signup, or the one insertion of a companion
    chat. *)
Inductive store_effect (w : World) (st : AppState) : Request -> Database -> Prop :=
  | effect_none req : store_effect w st req (database st)
  | effect_signup user hashed :
      List.find (fun d => String.eqb (UserDoc.username d) (UserSignup.username user))
        (users (database st)) = None ->
      List.find (fun d => String.eqb (UserDoc.email d) (UserSignup.email user))
        (users (database st)) = None ->
      bcrypt_hashpw w (UserSignup.password user) = Returns hashed ->
      store_effect w st (Signup user)
        {| users := (users (database st) ++ [new_user_doc w user hashed])%list;
           chat_messages := chat_messages (database st) |}
  | effect_companion_chat credentials chat_req current_user response :
      authenticate w credentials = Ok current_user ->
      store_effect w st (CompanionChat credentials chat_req)
        {| users := users (database st);
           chat_messages :=
             (chat_messages (database st) ++
                [new_chat_message w (jwt.user_id current_user)
                   (MotivationalChatRequest.message chat_req) response])%list |}.

(** A computation that leaves the contents of the store alone. *)
Definition reads_only {A} (m : M A) : Prop :=
  forall st, database (snd (m st)) = database st.

(** Usernames and emails are unique across the stored identities. *)
Definition users_unique (d : Database) : Prop :=
  NoDup (UserDoc.username <$> users d) /\ NoDup (UserDoc.email <$> users d).

(** The page of history the store returns for an identity. *)
Definition history_page (uid : string) (l : list ChatMessage.t) : list ChatMessage.t :=
  take 50 (merge_sort newest_first
             (filter (fun m => ChatMessage.user_id m = uid) l)).

(** The states a computation may lead to: store contents replaced, or an
    agent constructed under a tag that was absent. *)
Inductive cache_reaches : AppState -> AppState -> Prop :=
  | reaches_refl st : cache_reaches st st
  | reaches_store st d : cache_reaches st (set_database d st)
  | reaches_construct st tag cls :
      agent_cache st !! tag = None ->
      class_of_tag tag = Some cls ->
      cache_reaches st (constructed_state cls tag st)
  | reaches_trans st1 st2 st3 :
      cache_reaches st1 st2 -> cache_reaches st2 st3 -> cache_reaches st1 st3.

Definition leads {A} (m : M A) : Prop := forall st, cache_reaches st (snd (m st)).

(** Every cached agent has the class of its tag and a serial of its own
    below the construction counter. *)
Definition cache_well_formed (st : AppState) : Prop :=
  (forall tag a,
     agent_cache st !! tag = Some a ->
     class_of_tag tag = Some (agent_class a) /\ (serial a < constructed st)%nat)
  /\ (forall tag1 tag2 a1 a2,
        agent_cache st !! tag1 = Some a1 ->
        agent_cache st !! tag2 = Some a2 ->
        serial a1 = serial a2 -> tag1 = tag2).

(** The login request of the user who signed up as [user]. *)
Definition login_of (user : UserSignup.t) : UserLogin.t :=
  {| UserLogin.username := UserSignup.username user;
     UserLogin.password := UserSignup.password user |}.

(** The records an identity owns, in the order they were written. *)
Definition owned_records (uid : string) (d : Database) : list ChatMessage.t :=
  filter (fun m => ChatMessage.user_id m = uid) (chat_messages d).


(** The sample world with a password check that raises, as bcrypt does on
    input it rejects. *)
Definition checkpw_raising_world : World :=
  {| JWT_SECRET := "test-secret";
     now := 1000;
     uuid4 := "id-1";
     bcrypt_hashpw := fun p => Returns ("hash:" +:+ p);
     bcrypt_checkpw := fun _ _ => Throws "Invalid salt";
     execute := fun _ _ _ => Returns sample_agent_response;
     get_capabilities := fun _ => Returns ["chat"];
     store_fault := no_fault;
     int_of_str := fun _ => None;
     int_error := fun _ => "invalid literal for int()";
     validation_error := fun f => "validation error: " +:+ f |}.

(** Two records of one identity written at the same instant. *)
Definition tied_first : ChatMessage.t :=
  {| ChatMessage.id := "m-1";
     ChatMessage.user_id := "id-1";
     ChatMessage.message := "first";
     ChatMessage.response := "hi";
     ChatMessage.timestamp := 910 |}.

Definition tied_second : ChatMessage.t :=
  {| ChatMessage.id := "m-2";
     ChatMessage.user_id := "id-1";
     ChatMessage.message := "second";
     ChatMessage.response := "hi";
     ChatMessage.timestamp := 910 |}.

Definition tied_state : AppState :=
  lifespan_state
    {| users := [alice_doc]; chat_messages := [tied_first; tied_second] |}.

(** ** Two signups that overlap

    [signup] suspends at each of its three awaited store operations.  It
    is cut here after the second lookup, so that another signup can run
    its own lookups before the first one inserts. *)

Definition signup_failed (exc : exn) : AuthResponse.t :=
  {| AuthResponse.success := false; AuthResponse.token := None;
     AuthResponse.username := None;
     AuthResponse.message := Some (str exc) |}.

(** [signup] up to and including its two lookups: the refusal it returns
    there, or [None] when it goes on to insert. *)
Definition signup_lookups (w : World) (user : UserSignup.t)
    : M (option AuthResponse.t) :=
  run! _ensure_db in
  let! existing_user :=
    users_find_one w UsersFindByUsername UserDoc.username (UserSignup.username user) in
  match existing_user with
  | Some _ =>
      ret (Some {| AuthResponse.success := false; AuthResponse.token := None;
                   AuthResponse.username := None;
                   AuthResponse.message := Some "Username already exists" |})
  | None =>
      let! existing_email :=
        users_find_one w UsersFindByEmail UserDoc.email (UserSignup.email user) in
      match existing_email with
      | Some _ =>
          ret (Some {| AuthResponse.success := false; AuthResponse.token := None;
                       AuthResponse.username := None;
                       AuthResponse.message := Some "Email already exists" |})
      | None => ret None
      end
  end.

(** [signup] from the creation of the document on. *)
Definition signup_insert (w : World) (user : UserSignup.t) : M AuthResponse.t :=
  let user_id := uuid4 w in
  let! hashed := _hash_password w (UserSignup.password user) in
  let user_doc :=
    {| UserDoc.id := user_id;
       UserDoc.username := UserSignup.username user;
       UserDoc.email := UserSignup.email user;
       UserDoc.password := hashed;
       UserDoc.created_at := now w |} in
  run! users_insert_one w user_doc in
  let token := _create_token w user_id (UserSignup.username user) in
  ret {| AuthResponse.success := true; AuthResponse.token := Some token;
         AuthResponse.username := Some (UserSignup.username user);
         AuthResponse.message := Some "Account created successfully" |}.

(** A signup resumed after its lookups ended with outcome [r], still
    inside its [try]. *)
Definition signup_resume (w : World) (user : UserSignup.t)
    (r : Outcome (option AuthResponse.t)) : M AuthResponse.t :=
  try_except
    (match r with
     | Raise e => raise e
     | Ok (Some refusal) => ret refusal
     | Ok None => signup_insert w user
     end)
    (except_Exception signup_failed).

(** Two signups scheduled so that the lookups of both complete before
    either of them inserts. *)
Definition overlapping_signups (wa : World) (ua : UserSignup.t)
    (wb : World) (ub : UserSignup.t) (st : AppState)
    : Outcome AuthResponse.t * Outcome AuthResponse.t * AppState :=
  let '(ra, st1) := signup_lookups wa ua st in
  let '(rb, st2) := signup_lookups wb ub st1 in
  let '(ba, st3) := signup_resume wa ua ra st2 in
  let '(bb, st4) := signup_resume wb ub rb st3 in
  (ba, bb, st4).

(** The body of a successful signup. *)
Definition account_created (w : World) (user : UserSignup.t) : AuthResponse.t :=
  {| AuthResponse.success := true;
     AuthResponse.token :=
       Some (_create_token w (uuid4 w) (UserSignup.username user));
     AuthResponse.username := Some (UserSignup.username user);
     AuthResponse.message := Some "Account created successfully" |}.

Definition second_signup : UserSignup.t :=
  {| UserSignup.username := "alice";
     UserSignup.email := "alice@example.org";
     UserSignup.password := "other" |}.

(** * Properties *)

(** ** Agent resolution *)

Lemma resolve_cached tag st a :
  agent_cache st !! tag = Some a -> _get_or_create_agent tag st = (Ok a, st).
Proof.
  intros Hin. unfold _get_or_create_agent, bind, _get_agent_cache. simpl.
  rewrite Hin. reflexivity.
Qed.

Lemma resolve_absent tag st :
  agent_cache st !! tag = None ->
  _get_or_create_agent tag st =
    match class_of_tag tag with
    | Some cls =>
        (Ok {| agent_class := cls; serial := constructed st |},
         constructed_state cls tag st)
    | None =>
        (Raise (HTTPException 400 ("Unknown agent type '" +:+ tag +:+ "'")), st)
    end.
Proof.
  intros Hout. unfold _get_or_create_agent, bind, _get_agent_cache, class_of_tag.
  simpl. rewrite Hout.
  destruct (String.eqb tag "search"); [|destruct (String.eqb tag "chat")]; simpl;
    unfold cache_item, constructed_state; simpl;
    rewrite ?lookup_insert_eq; reflexivity.
Qed.

Lemma class_of_recognized tag :
  tag = "chat" \/ tag = "search" -> exists cls, class_of_tag tag = Some cls.
Proof. intros [-> | ->]; eexists; reflexivity. Qed.

Lemma grows_refl st : grows st st.
Proof. repeat split; auto. Qed.

Lemma grows_trans st1 st2 st3 : grows st1 st2 -> grows st2 st3 -> grows st1 st3.
Proof.
  intros (Hd1 & Hc1 & Hi1) (Hd2 & Hc2 & Hi2). repeat split.
  - congruence.
  - auto.
  - auto.
Qed.

Lemma keeps_ret {A} (a : A) : keeps_cache (ret a).
Proof. intros st. apply grows_refl. Qed.

Lemma keeps_raise {A} e : keeps_cache (@raise A e).
Proof. intros st. apply grows_refl. Qed.

Lemma keeps_call {A} (x : ext A) : keeps_cache (call x).
Proof. intros st. apply grows_refl. Qed.

Lemma keeps_bind {A B} (m : M A) (k : A -> M B) :
  keeps_cache m -> (forall a, keeps_cache (k a)) -> keeps_cache (bind m k).
Proof.
  intros Hm Hk st. unfold bind. specialize (Hm st).
  destruct (m st) as [[a|e] st']; simpl in *; [|exact Hm].
  eapply grows_trans; [exact Hm|apply Hk].
Qed.

Lemma keeps_try_except {A} (m : M A) (h : exn -> M A) :
  keeps_cache m -> (forall e, keeps_cache (h e)) -> keeps_cache (try_except m h).
Proof.
  intros Hm Hh st. unfold try_except. specialize (Hm st).
  destruct (m st) as [[a|e] st']; simpl in *; [exact Hm|].
  eapply grows_trans; [exact Hm|apply Hh].
Qed.

Lemma keeps_store_call {A} w op (f : Database -> A * Database) :
  keeps_cache (store_call w op f).
Proof.
  intros st. unfold store_call.
  destruct (store_fault w op); simpl; [apply grows_refl|].
  destruct (f (database st)); simpl. repeat split; auto.
Qed.

Lemma keeps_ensure_db : keeps_cache _ensure_db.
Proof. intros st. unfold _ensure_db. destruct (db_ready st); apply grows_refl. Qed.

Lemma keeps_current_user w c : keeps_cache (current_user_dependency w c).
Proof. intros st. apply grows_refl. Qed.

Lemma grows_constructed cls tag st :
  agent_cache st !! tag = None -> grows st (constructed_state cls tag st).
Proof.
  intros Hout. repeat split; simpl.
  - intros t a Ht. rewrite lookup_insert_ne; [exact Ht|]. congruence.
  - unfold one_handle_per_tag. simpl. intros <-.
    apply map_size_insert_None. exact Hout.
Qed.

Lemma keeps_get_or_create_agent tag : keeps_cache (_get_or_create_agent tag).
Proof.
  intros st. destruct (agent_cache st !! tag) as [a|] eqn:Hc.
  - rewrite (resolve_cached _ _ _ Hc). apply grows_refl.
  - rewrite (resolve_absent _ _ Hc). destruct (class_of_tag tag); simpl.
    + apply grows_constructed. exact Hc.
    + apply grows_refl.
Qed.

Ltac keeps_step :=
  lazymatch goal with
  | |- keeps_cache (_get_or_create_agent _) => apply keeps_get_or_create_agent
  | |- keeps_cache _ensure_db => apply keeps_ensure_db
  | |- keeps_cache (current_user_dependency _ _) => apply keeps_current_user
  | |- keeps_cache (store_call _ _ _) => apply keeps_store_call
  | |- keeps_cache (call _) => apply keeps_call
  | |- keeps_cache (ret _) => apply keeps_ret
  | |- keeps_cache (raise _) => apply keeps_raise
  | |- keeps_cache (bind _ _) => apply keeps_bind
  | |- keeps_cache (try_except _ _) => apply keeps_try_except
  | |- keeps_cache (match ?x with _ => _ end) => destruct x
  | |- keeps_cache _ => fail
  | |- _ => intro
  end.

Ltac keeps := repeat keeps_step.

Lemma keeps_signup w user : keeps_cache (signup w user).
Proof. unfold signup, users_find_one, users_insert_one, _hash_password, except_Exception. keeps. Qed.

Lemma keeps_login w user : keeps_cache (login w user).
Proof. unfold login, users_find_one, _verify_password, except_Exception. keeps. Qed.

Lemma keeps_except_raise {A} (f : exn -> A) e : keeps_cache (except_HTTPException_raise f e).
Proof. unfold except_HTTPException_raise. keeps. Qed.

Lemma keeps_motivational_chat w r u : keeps_cache (motivational_chat w r u).
Proof.
  unfold motivational_chat, chat_messages_insert_one. keeps; apply keeps_except_raise.
Qed.

Lemma keeps_get_chat_history w u : keeps_cache (get_chat_history w u).
Proof. unfold get_chat_history, chat_messages_find. keeps; apply keeps_except_raise. Qed.

Lemma keeps_get_daily_quote w u : keeps_cache (get_daily_quote w u).
Proof. unfold get_daily_quote. keeps; apply keeps_except_raise. Qed.

Lemma keeps_chat_with_agent w r : keeps_cache (chat_with_agent w r).
Proof. unfold chat_with_agent, validate_metadata. keeps; apply keeps_except_raise. Qed.

Lemma keeps_search_and_summarize w r : keeps_cache (search_and_summarize w r).
Proof. unfold search_and_summarize, py_int. keeps; apply keeps_except_raise. Qed.

Lemma keeps_get_agent_capabilities w : keeps_cache (get_agent_capabilities w).
Proof. unfold get_agent_capabilities. keeps; apply keeps_except_raise. Qed.

Lemma snd_endpoint {A} (wrap : A -> Body) (m : M A) st :
  snd (endpoint wrap m st) = snd (m st).
Proof. unfold endpoint. destruct (m st); reflexivity. Qed.

Lemma fst_endpoint {A} (wrap : A -> Body) (m : M A) st :
  fst (endpoint wrap m st) = respond wrap (fst (m st)).
Proof. unfold endpoint. destruct (m st); reflexivity. Qed.

(** Serving a request keeps every cached agent in place. *)
Lemma handle_grows w req st : grows st (snd (handle w req st)).
Proof.
  destruct req; simpl; rewrite snd_endpoint.
  - apply keeps_signup.
  - apply keeps_login.
  - apply keeps_bind; [apply keeps_current_user|intros; apply keeps_motivational_chat].
  - apply keeps_bind; [apply keeps_current_user|intros; apply keeps_get_daily_quote].
  - apply keeps_bind; [apply keeps_current_user|intros; apply keeps_get_chat_history].
  - apply keeps_chat_with_agent.
  - apply keeps_search_and_summarize.
  - apply keeps_get_agent_capabilities.
Qed.

Lemma serve_all_grows reqs st : grows st (serve_all reqs st).
Proof.
  revert st. induction reqs as [|[w req] rest IH]; intros st; simpl.
  - apply grows_refl.
  - eapply grows_trans; [apply handle_grows|apply IH].
Qed.

Lemma resolve_fixed tag st :
  tag = "chat" \/ tag = "search" ->
  exists a st',
    _get_or_create_agent tag st = (Ok a, st')
    /\ db_ready st' = db_ready st /\ database st' = database st.
Proof.
  intros Htag. destruct (agent_cache st !! tag) as [a|] eqn:Hc.
  - exists a, st. rewrite (resolve_cached _ _ _ Hc). auto.
  - rewrite (resolve_absent _ _ Hc).
    destruct (class_of_recognized _ Htag) as [cls ->].
    eexists _, _. split; [reflexivity|]. split; reflexivity.
Qed.

Lemma resolve_raises tag st e st' :
  _get_or_create_agent tag st = (Raise e, st') ->
  agent_cache st !! tag = None /\ class_of_tag tag = None
  /\ e = HTTPException 400 ("Unknown agent type '" +:+ tag +:+ "'") /\ st' = st.
Proof.
  destruct (agent_cache st !! tag) as [a|] eqn:Hc.
  - rewrite (resolve_cached _ _ _ Hc). discriminate.
  - rewrite (resolve_absent _ _ Hc). destruct (class_of_tag tag); [discriminate|].
    intros [= <- <-]. auto.
Qed.

Ltac resolve_fixed_tag tag st :=
  let a := fresh "a" in
  let st' := fresh "st'" in
  let Hres := fresh "Hres" in
  let Hdb := fresh "Hdb" in
  let Hst := fresh "Hst" in
  destruct (resolve_fixed tag st ltac:(auto)) as (a & st' & Hres & Hdb & Hst);
  rewrite Hres.

Ltac atomic_scrutinee x :=
  lazymatch x with
  | context [match _ with _ => _ end] => fail
  | _ => idtac
  end.

Ltac case_world :=
  repeat match goal with
    | |- context [match ?x with _ => _ end] =>
        atomic_scrutinee x; destruct x eqn:?; simpl
    end.

Ltac unfold_m :=
  unfold try_except, bind, call, lift_ext, ret, raise, store_call,
    except_HTTPException_raise, except_Exception in *.

Lemma signup_returns w user st : exists b, fst (signup w user st) = Ok b.
Proof.
  unfold signup, _ensure_db, users_find_one, users_insert_one, _hash_password.
  unfold_m; simpl. case_world; eauto.
Qed.

Lemma login_returns w user st : exists b, fst (login w user st) = Ok b.
Proof.
  unfold login, _ensure_db, users_find_one, _verify_password.
  unfold_m; simpl. case_world; eauto.
Qed.

Lemma motivational_chat_raises w r u st e :
  fst (motivational_chat w r u st) = Raise e ->
  db_ready st = false /\ e = HTTPException 503 "Database not ready".
Proof.
  unfold motivational_chat, _ensure_db, chat_messages_insert_one. unfold_m.
  destruct (db_ready st) eqn:Hd; simpl.
  - resolve_fixed_tag "chat" st. case_world; discriminate.
  - intros [= <-]. auto.
Qed.

Lemma get_chat_history_raises w u st e :
  fst (get_chat_history w u st) = Raise e ->
  db_ready st = false /\ e = HTTPException 503 "Database not ready".
Proof.
  unfold get_chat_history, _ensure_db, chat_messages_find. unfold_m.
  destruct (db_ready st) eqn:Hd; simpl.
  - case_world; discriminate.
  - intros [= <-]. auto.
Qed.

Lemma get_daily_quote_returns w u st : exists b, fst (get_daily_quote w u st) = Ok b.
Proof.
  unfold get_daily_quote. unfold_m.
  resolve_fixed_tag "chat" st. case_world; eauto.
Qed.

Lemma search_and_summarize_returns w r st :
  exists b, fst (search_and_summarize w r st) = Ok b.
Proof.
  unfold search_and_summarize, py_int. unfold_m.
  resolve_fixed_tag "search" st. case_world; eauto.
Qed.

Lemma get_agent_capabilities_returns w st :
  exists b, fst (get_agent_capabilities w st) = Ok b.
Proof.
  unfold get_agent_capabilities. unfold_m.
  resolve_fixed_tag "search" st. resolve_fixed_tag "chat" st'.
  case_world; eauto.
Qed.

Lemma chat_with_agent_raises w r st e :
  fst (chat_with_agent w r st) = Raise e ->
  agent_cache st !! ChatRequest.agent_type r = None
  /\ class_of_tag (ChatRequest.agent_type r) = None
  /\ e = HTTPException 400
           ("Unknown agent type '" +:+ ChatRequest.agent_type r +:+ "'").
Proof.
  unfold chat_with_agent, validate_metadata. unfold_m.
  destruct (_get_or_create_agent (ChatRequest.agent_type r) st) as [[a|e'] st'] eqn:Hres.
  - case_world; discriminate.
  - apply resolve_raises in Hres as (Hc & Hcls & -> & ->). simpl.
    intros [= <-]. auto.
Qed.


Lemma set_database_same st : set_database (database st) st = st.
Proof. destruct st; reflexivity. Qed.

(** ** Transport-level outcomes *)

Lemma authenticate_raises w c e :
  authenticate w c = Raise e ->
  e = HTTPException 403 "Not authenticated"
  \/ e = HTTPException 401 "Token expired"
  \/ e = HTTPException 401 "Invalid token".
Proof.
  unfold authenticate, security, _get_current_user.
  destruct c as [t|]; [|intros [= <-]; auto].
  destruct (jwt.decode _ _ _ _) as [[]|p]; intros [= <-]; auto.
Qed.

Lemma respond_error_inv {A} (wrap : A -> Body) o c d :
  (forall m, o <> Raise (Exception m)) ->
  respond wrap o = HttpError c d -> o = Raise (HTTPException c d).
Proof.
  intros Hplain. destruct o as [a|[c' d'|m]]; simpl.
  - discriminate.
  - intros [= -> ->]. reflexivity.
  - destruct (Hplain m). reflexivity.
Qed.

(** An operation behind the authentication dependency. *)
Lemma authenticated_endpoint {A} (wrap : A -> Body) w c (h : jwt.Payload -> M A) st :
  fst (endpoint wrap (bind (current_user_dependency w c) h) st) =
    match authenticate w c with
    | Ok u => respond wrap (fst (h u st))
    | Raise e => respond wrap (Raise e)
    end.
Proof.
  rewrite fst_endpoint. unfold bind, current_user_dependency.
  destruct (authenticate w c); reflexivity.
Qed.

Lemma handle_error_inv w req st c d :
  fst (handle w req st) = HttpError c d -> transport_failure w st req c d.
Proof.
  destruct req as [user|user|cr r|cr|cr|r|r|]; simpl.
  - rewrite fst_endpoint. destruct (signup_returns w user st) as [b ->]. discriminate.
  - rewrite fst_endpoint. destruct (login_returns w user st) as [b ->]. discriminate.
  - rewrite authenticated_endpoint. destruct (authenticate w cr) as [u|e] eqn:Ha.
    + destruct (fst (motivational_chat w r u st)) as [b|e] eqn:Hm; [discriminate|].
      apply motivational_chat_raises in Hm as [Hd ->]. intros [= <- <-].
      eapply database_not_ready; eauto.
    + destruct (authenticate_raises _ _ _ Ha) as [-> | [-> | ->]];
        intros [= <- <-]; eapply authentication_failure; eauto; reflexivity.
  - rewrite authenticated_endpoint. destruct (authenticate w cr) as [u|e] eqn:Ha.
    + destruct (get_daily_quote_returns w u st) as [b ->]. discriminate.
    + destruct (authenticate_raises _ _ _ Ha) as [-> | [-> | ->]];
        intros [= <- <-]; eapply authentication_failure; eauto; reflexivity.
  - rewrite authenticated_endpoint. destruct (authenticate w cr) as [u|e] eqn:Ha.
    + destruct (fst (get_chat_history w u st)) as [b|e] eqn:Hm; [discriminate|].
      apply get_chat_history_raises in Hm as [Hd ->]. intros [= <- <-].
      eapply database_not_ready; eauto.
    + destruct (authenticate_raises _ _ _ Ha) as [-> | [-> | ->]];
        intros [= <- <-]; eapply authentication_failure; eauto; reflexivity.
  - rewrite fst_endpoint.
    destruct (fst (chat_with_agent w r st)) as [b|e] eqn:Hm; [discriminate|].
    apply chat_with_agent_raises in Hm as (Hc & Hcls & ->). intros [= <- <-].
    apply unknown_agent_type; assumption.
  - rewrite fst_endpoint. destruct (search_and_summarize_returns w r st) as [b ->].
    discriminate.
  - rewrite fst_endpoint. destruct (get_agent_capabilities_returns w st) as [b ->].
    discriminate.
Qed.


Lemma no_failure_authenticated w st req c :
  (forall status d, ~ transport_failure w st req status d) ->
  credentials_of req = Some c ->
  exists u, authenticate w c = Ok u.
Proof.
  intros Hno Hcr. destruct (authenticate w c) as [u|e] eqn:Ha; [eauto|].
  exfalso. destruct (authenticate_raises _ _ _ Ha) as [-> | [-> | ->]];
    eapply Hno, authentication_failure; eauto.
Qed.

Lemma no_failure_db_ready w st req c :
  (forall status d, ~ transport_failure w st req status d) ->
  store_guarded req = true ->
  credentials_of req = Some c ->
  db_ready st = true.
Proof.
  intros Hno Hg Hcr. destruct (no_failure_authenticated _ _ _ _ Hno Hcr) as [u Ha].
  destruct (db_ready st) eqn:Hd; [reflexivity|].
  exfalso. eapply Hno, database_not_ready; eauto.
Qed.

(** ** The agent reports failure *)



Lemma search_no_transport_failure w st r status d :
  ~ transport_failure w st (Search r) status d.
Proof. intros H. inversion H; discriminate. Qed.








(** ** Search: the source count *)

Lemma metadata_or_empty_Some d : metadata_or_empty (Some d) = d.
Proof. unfold metadata_or_empty. case_bool_decide; congruence. Qed.

(** The value handed to [int]: the reported entry, or 0. *)
Lemma counter_lookup res :
  dict_get (metadata_or_empty (AgentResponse.metadata res)) "tool_run_count"
    (dict_get (metadata_or_empty (AgentResponse.metadata res)) "tools_used" (PyInt 0))
  = default (PyInt 0) (reported_entry res).
Proof.
  unfold reported_entry, dict_get.
  destruct (AgentResponse.metadata res) as [md|].
  - rewrite metadata_or_empty_Some.
    destruct (md !! "tool_run_count"); [reflexivity|].
    destruct (md !! "tools_used"); reflexivity.
  - simpl. rewrite !lookup_empty. reflexivity.
Qed.

(** [int(v or 0)] against the number [v] stands for. *)
Lemma py_int_or_zero w v st :
  py_int w (py_or v (PyInt 0)) st =
    match numeric_value w v with
    | Some n => (Ok n, st)
    | None =>
        if truthy v then (Raise (Exception (int_error w v)), st) else (Ok 0, st)
    end.
Proof.
  unfold py_or. destruct v as [|b|n|s|l|d]; simpl; try reflexivity.
  - destruct b; reflexivity.
  - destruct (Z.eqb_spec n 0) as [-> | Hn]; reflexivity.
  - destruct (String.eqb s ""); simpl; [reflexivity|].
    destruct (int_of_str w s); reflexivity.
  - destruct l; reflexivity.
  - case_bool_decide; reflexivity.
Qed.

Lemma search_outcome w r st agent st' res :
  _get_or_create_agent "search" st = (Ok agent, st') ->
  execute w agent (search_prompt (SearchRequest.query r)) true = Returns res ->
  AgentResponse.success res = true ->
  fst (search_and_summarize w r st) =
    match numeric_value w (default (PyInt 0) (reported_entry res)),
          truthy (default (PyInt 0) (reported_entry res)) with
    | None, true =>
        Ok {| SearchResponse.success := false;
              SearchResponse.query := SearchRequest.query r;
              SearchResponse.summary := "";
              SearchResponse.search_results := None;
              SearchResponse.sources_count := 0;
              SearchResponse.error :=
                Some (int_error w (default (PyInt 0) (reported_entry res))) |}
    | count, _ =>
        Ok {| SearchResponse.success := true;
              SearchResponse.query := SearchRequest.query r;
              SearchResponse.summary := AgentResponse.content res;
              SearchResponse.search_results :=
                Some (metadata_or_empty (AgentResponse.metadata res));
              SearchResponse.sources_count := default 0 count;
              SearchResponse.error := None |}
    end.
Proof.
  intros Hres Hex Hok. unfold search_and_summarize.
  unfold try_except at 1. unfold bind at 1. rewrite Hres.
  unfold bind at 1. unfold call at 1. rewrite Hex. simpl. rewrite Hok.
  unfold bind at 1. rewrite counter_lookup, py_int_or_zero.
  destruct (numeric_value w _) as [n|]; [reflexivity|].
  destruct (truthy _); reflexivity.
Qed.

(** C2.  When the search agent reports success, the search operation
    answers with a [SearchResponse] whose sources_count is the number the
    reported tool-invocation entry of the metadata stands for when that
    entry is present and numeric, and 0 when the metadata mapping is
    absent, the entry is absent, or the entry is not numeric. *)
Theorem search_sources_count (w : World) (r : SearchRequest.t) (st : AppState)
    (res : AgentResponse.t) :
  agent_invocation w (Search r) st = Some (Returns res) ->
  AgentResponse.success res = true ->
  exists body,
    fst (handle w (Search r) st) = Http200 (SearchBody body)
    /\ SearchResponse.query body = SearchRequest.query r
    /\ (forall v n,
          reported_entry res = Some v -> numeric_value w v = Some n ->
          SearchResponse.sources_count body = n
          /\ SearchResponse.success body = true
          /\ SearchResponse.summary body = AgentResponse.content res)
    /\ (AgentResponse.metadata res = None \/ reported_entry res = None ->
        SearchResponse.sources_count body = 0
        /\ SearchResponse.success body = true
        /\ SearchResponse.summary body = AgentResponse.content res)
    /\ (forall v,
          reported_entry res = Some v -> numeric_value w v = None ->
          SearchResponse.sources_count body = 0).
Proof.
  intros Hinv Hok. simpl in Hinv.
  destruct (resolve_fixed "search" st ltac:(auto)) as (agent & st' & Hres & _).
  rewrite Hres in Hinv. simpl in Hinv. injection Hinv as Hex.
  simpl. rewrite fst_endpoint, (search_outcome _ _ _ _ _ _ Hres Hex Hok).
  assert (Habsent : AgentResponse.metadata res = None \/ reported_entry res = None ->
                    reported_entry res = None).
  { intros [Hmd | Hnone]; [|exact Hnone]. unfold reported_entry. rewrite Hmd.
    reflexivity. }
  destruct (reported_entry res) as [v|] eqn:Hentry; simpl.
  - destruct (numeric_value w v) as [n|] eqn:Hnum.
    + eexists. split; [reflexivity|]. split; [reflexivity|]. simpl.
      split; [|split].
      * intros v' n' [= <-] Hn'. rewrite Hnum in Hn'. injection Hn' as <-. auto.
      * intros Hnone. apply Habsent in Hnone. discriminate.
      * intros v' [= <-] Hn'. rewrite Hnum in Hn'. discriminate.
    + destruct (truthy v); eexists; (split; [reflexivity|]);
        (split; [reflexivity|]); simpl; (split; [|split]).
      all: try (intros v' n' [= <-] Hn'; rewrite Hnum in Hn'; discriminate).
      all: try (intros Hnone; apply Habsent in Hnone; discriminate).
      all: intros; reflexivity.
  - eexists. split; [reflexivity|]. split; [reflexivity|]. simpl.
    split; [|split].
    + intros v n [=].
    + auto.
    + intros v [=].
Qed.

Lemma search_sources_count_witness :
  exists body,
    fst (handle sample_world sample_search_request initial_state)
    = Http200 (SearchBody body)
    /\ SearchResponse.sources_count body = 3.
Proof.
  destruct (search_sources_count sample_world
              {| SearchRequest.query := "rocq"; SearchRequest.max_results := 5 |}
              initial_state sample_agent_response)
    as (body & Hbody & _ & Hnumeric & _).
  - vm_compute. reflexivity.
  - reflexivity.
  - exists body. split; [exact Hbody|].
    apply (Hnumeric (PyInt 3) 3); vm_compute; reflexivity.
Defined.

(** ** Companion chat: the history append fails *)

(** C4 (amended).  When the agent invocation of a companion-chat request
    succeeds and the append to the history store fails, the request does
    not crash: the failure is caught by the catch-all clause and answered
    with status 200 and a body with success=false, an empty response field
    and the store failure's description as the error string.  The content
    the agent produced is not part of the answer, and no record is
    appended. *)
Theorem append_failure_is_reported (w : World) (credentials : option jwt.Token)
    (chat_req : MotivationalChatRequest.t) (st : AppState)
    (current_user : jwt.Payload) (res : AgentResponse.t) (failure : string) :
  authenticate w credentials = Ok current_user ->
  db_ready st = true ->
  agent_invocation w (CompanionChat credentials chat_req) st = Some (Returns res) ->
  AgentResponse.success res = true ->
  store_fault w ChatMessagesInsertOne = Some failure ->
  fst (handle w (CompanionChat credentials chat_req) st) =
    Http200 (MotivationalChatBody
      {| MotivationalChatResponse.success := false;
         MotivationalChatResponse.response := "";
         MotivationalChatResponse.timestamp := now w;
         MotivationalChatResponse.error := Some failure |})
  /\ database (snd (handle w (CompanionChat credentials chat_req) st)) = database st.
Proof.
  intros Ha Hd Hinv Hok Hfault. simpl in Hinv.
  destruct (resolve_fixed "chat" st ltac:(auto)) as (agent & st' & Hres & _ & Hdb).
  rewrite Hres in Hinv. simpl in Hinv. injection Hinv as Hex.
  simpl. unfold endpoint, current_user_dependency, motivational_chat, _ensure_db,
    chat_messages_insert_one. unfold_m.
  rewrite Ha, Hd, Hres, Hex. simpl. rewrite Hok. simpl. rewrite Hfault. simpl.
  split; [reflexivity|exact Hdb].
Qed.

Lemma append_failure_is_reported_witness :
  fst (handle append_failing_world sample_chat_request initial_state) =
    Http200 (MotivationalChatBody
      {| MotivationalChatResponse.success := false;
         MotivationalChatResponse.response := "";
         MotivationalChatResponse.timestamp := 1000;
         MotivationalChatResponse.error := Some "store unavailable" |}).
Proof.
  apply (append_failure_is_reported append_failing_world (Some sample_token)
           {| MotivationalChatRequest.message := "I'm feeling down today" |}
           initial_state
           {| jwt.user_id := "id-1"; jwt.username := "alice"; jwt.exp := 605800 |}
           sample_agent_response "store unavailable").
  - vm_compute. reflexivity.
  - reflexivity.
  - vm_compute. reflexivity.
  - reflexivity.
  - reflexivity.
Defined.

(** C4 as stated fails: the agent answers "You can do it" and the append
    is rejected; the body then reports success=false with an empty
    response field, and it is the very body sent when the agent itself
    raises, so nothing in it tells that a response text was produced. *)
Lemma append_failure_discards_content :
  execute append_failing_world {| agent_class := ChatAgent; serial := 0 |}
    (motivational_prompt "I'm feeling down today") false
  = Returns sample_agent_response
  /\ AgentResponse.success sample_agent_response = true
  /\ AgentResponse.content sample_agent_response = "You can do it"
  /\ fst (handle append_failing_world sample_chat_request initial_state) =
       Http200 (MotivationalChatBody
         {| MotivationalChatResponse.success := false;
            MotivationalChatResponse.response := "";
            MotivationalChatResponse.timestamp := 1000;
            MotivationalChatResponse.error := Some "store unavailable" |})
  /\ fst (handle agent_raising_world sample_chat_request initial_state)
     = fst (handle append_failing_world sample_chat_request initial_state).
Proof. repeat split; vm_compute; reflexivity. Qed.

(** ** Token service *)

Lemma algorithm_accepted : bool_decide (JWT_ALGORITHM ∈ [JWT_ALGORITHM]) = true.
Proof. apply bool_decide_eq_true. apply list_elem_of_singleton. reflexivity. Qed.

(** Verification of a token signed with the verifier's own secret. *)
Lemma verify_issued w' p :
  _get_current_user w' (jwt.Signed p (JWT_SECRET w') JWT_ALGORITHM) =
    if jwt.exp p <=? now w' then Raise (HTTPException 401 "Token expired")
    else Ok p.
Proof.
  unfold _get_current_user, jwt.decode.
  rewrite algorithm_accepted, String.eqb_refl. simpl.
  destruct (jwt.exp p <=? now w'); reflexivity.
Qed.

(** Verification of anything else. *)
Lemma verify_foreign w' t :
  (forall p, t <> jwt.Signed p (JWT_SECRET w') JWT_ALGORITHM) ->
  _get_current_user w' t = Raise (HTTPException 401 "Invalid token").
Proof.
  intros Hforeign. unfold _get_current_user, jwt.decode.
  destruct t as [p k a|raw]; [|reflexivity].
  case_bool_decide as Halg; simpl; [|reflexivity].
  destruct (String.eqb_spec k (JWT_SECRET w')) as [-> | Hk]; simpl; [|reflexivity].
  apply list_elem_of_singleton in Halg as ->. destruct (Hforeign p). reflexivity.
Qed.

Lemma signup_success_inv w user st body st' :
  signup w user st = (Ok body, st') ->
  AuthResponse.success body = true ->
  body = {| AuthResponse.success := true;
            AuthResponse.token :=
              Some (_create_token w (uuid4 w) (UserSignup.username user));
            AuthResponse.username := Some (UserSignup.username user);
            AuthResponse.message := Some "Account created successfully" |}
  /\ exists hashed,
       bcrypt_hashpw w (UserSignup.password user) = Returns hashed
       /\ users (database st') =
            (users (database st) ++
               [{| UserDoc.id := uuid4 w;
                   UserDoc.username := UserSignup.username user;
                   UserDoc.email := UserSignup.email user;
                   UserDoc.password := hashed;
                   UserDoc.created_at := now w |}])%list.
Proof.
  unfold signup, _ensure_db, users_find_one, users_insert_one, _hash_password.
  unfold_m. simpl. case_world; intros [= <- <-]; try discriminate.
  intros _. split; [reflexivity|]. eexists. split; reflexivity.
Qed.

(** C5.  The token a successful signup returns, verified before its
    expiry under the same signing secret, is accepted and yields the
    identifier and the username of the identity the signup stored. *)
Theorem signup_token_verifies (w w' : World) (user : UserSignup.t)
    (st st' : AppState) (body : AuthResponse.t) :
  signup w user st = (Ok body, st') ->
  AuthResponse.success body = true ->
  JWT_SECRET w' = JWT_SECRET w ->
  now w' < now w + 604800 ->
  exists token claim doc,
    AuthResponse.token body = Some token
    /\ authenticate w' (Some token) = Ok claim
    /\ jwt.user_id claim = uuid4 w
    /\ jwt.username claim = UserSignup.username user
    /\ doc ∈ users (database st')
    /\ UserDoc.id doc = jwt.user_id claim
    /\ UserDoc.username doc = jwt.username claim.
Proof.
  intros Hsignup Hok Hsecret Hnow.
  destruct (signup_success_inv _ _ _ _ _ Hsignup Hok) as (-> & hashed & _ & Husers).
  eexists _, _, _. split; [reflexivity|]. split.
  - unfold authenticate, security, _create_token, jwt.encode.
    rewrite <- Hsecret, verify_issued. simpl.
    destruct (Z.leb_spec (now w + 86400 * 7) (now w')); [lia|reflexivity].
  - simpl. split; [reflexivity|]. split; [reflexivity|]. split.
    + rewrite Husers. apply elem_of_app. right. apply list_elem_of_singleton. reflexivity.
    + split; reflexivity.
Qed.

Lemma signup_token_verifies_witness :
  exists token claim,
    AuthResponse.token
      {| AuthResponse.success := true;
         AuthResponse.token := Some (_create_token sample_world "id-1" "alice");
         AuthResponse.username := Some "alice";
         AuthResponse.message := Some "Account created successfully" |}
    = Some token
    /\ authenticate (world_at 4600) (Some token) = Ok claim
    /\ jwt.user_id claim = "id-1"
    /\ jwt.username claim = "alice".
Proof.
  destruct (signup_token_verifies sample_world (world_at 4600) sample_signup
              initial_state (snd (signup sample_world sample_signup initial_state))
              {| AuthResponse.success := true;
                 AuthResponse.token := Some (_create_token sample_world "id-1" "alice");
                 AuthResponse.username := Some "alice";
                 AuthResponse.message := Some "Account created successfully" |})
    as (token & claim & doc & Htoken & Hverify & Hid & Hname & _).
  - vm_compute. reflexivity.
  - reflexivity.
  - reflexivity.
  - vm_compute. reflexivity.
  - exists token, claim. auto.
Defined.

(** C6.  A token is issued with its expiry exactly 604800 seconds (7
    days) after the time of issue.  Under the issuing secret it verifies
    at every instant before that expiry, and at the expiry or later it is
    rejected with "Token expired"; a token that is malformed or not signed
    with the secret and algorithm of the service is rejected with "Invalid
    token", which is a different error. *)
Theorem token_expires_after_seven_days (w w' : World) (user_id username : string) :
  _create_token w user_id username =
    jwt.Signed
      {| jwt.user_id := user_id; jwt.username := username;
         jwt.exp := now w + 604800 |}
      (JWT_SECRET w) JWT_ALGORITHM
  /\ (JWT_SECRET w' = JWT_SECRET w ->
      (now w' < now w + 604800 ->
       exists claim,
         authenticate w' (Some (_create_token w user_id username)) = Ok claim)
      /\ (now w + 604800 <= now w' ->
          authenticate w' (Some (_create_token w user_id username))
          = Raise (HTTPException 401 "Token expired")))
  /\ (forall t,
        (forall p, t <> jwt.Signed p (JWT_SECRET w') JWT_ALGORITHM) ->
        authenticate w' (Some t) = Raise (HTTPException 401 "Invalid token"))
  /\ HTTPException 401 "Token expired" <> HTTPException 401 "Invalid token".
Proof.
  split; [reflexivity|]. split; [|split].
  - intros Hsecret. unfold authenticate, security, _create_token, jwt.encode.
    rewrite <- Hsecret, verify_issued. simpl.
    split; intros Hnow; destruct (Z.leb_spec (now w + 86400 * 7) (now w'));
      try lia; eauto.
  - intros t. apply verify_foreign.
  - discriminate.
Qed.

Lemma token_expires_after_seven_days_witness :
  authenticate (world_at 605800) (Some sample_token)
  = Raise (HTTPException 401 "Token expired")
  /\ authenticate (world_at 605799) (Some sample_token)
     = Ok {| jwt.user_id := "id-1"; jwt.username := "alice"; jwt.exp := 605800 |}
  /\ authenticate (world_at 4600) (Some (jwt.Malformed "not-a-token"))
     = Raise (HTTPException 401 "Invalid token").
Proof.
  destruct (token_expires_after_seven_days sample_world (world_at 605800)
              "id-1" "alice") as (_ & Hexpiry & _).
  destruct (token_expires_after_seven_days sample_world (world_at 605799)
              "id-1" "alice") as (_ & Hbefore & _).
  destruct (token_expires_after_seven_days sample_world (world_at 4600)
              "id-1" "alice") as (_ & _ & Hinvalid & _).
  split; [|split].
  - apply Hexpiry; [reflexivity|]. vm_compute. discriminate.
  - destruct Hbefore as [Hvalid _]; [reflexivity|].
    destruct Hvalid as [claim Hclaim]; [vm_compute; reflexivity|].
    vm_compute. reflexivity.
  - apply Hinvalid. intros p. discriminate.
Defined.

(** ** Signup and login *)

Lemma find_username_Some (l : list UserDoc.t) name doc :
  doc ∈ l -> UserDoc.username doc = name ->
  exists found,
    List.find (fun d => String.eqb (UserDoc.username d) name) l = Some found.
Proof.
  intros Hin Hname.
  destruct (List.find _ l) as [found|] eqn:Hfind; [eauto|].
  apply list_elem_of_In in Hin.
  pose proof (List.find_none _ _ Hfind _ Hin) as Hneq. simpl in Hneq.
  rewrite Hname, String.eqb_refl in Hneq. discriminate.
Qed.

Lemma find_username_None (l : list UserDoc.t) name :
  (forall doc, doc ∈ l -> UserDoc.username doc <> name) ->
  List.find (fun d => String.eqb (UserDoc.username d) name) l = None.
Proof.
  intros Hnone. destruct (List.find _ l) as [found|] eqn:Hfind; [|reflexivity].
  apply List.find_some in Hfind as [Hin Heq]. apply list_elem_of_In in Hin.
  apply String.eqb_eq in Heq. destruct (Hnone _ Hin Heq).
Qed.

(** C7.  A signup whose username is that of a stored identity answers
    with success=false and without a token, and leaves the user collection
    (and the whole application state) as it was; when the lookup by
    username is answered by the store, the message is "Username already
    exists". *)
Theorem signup_username_taken (w : World) (user : UserSignup.t) (st : AppState)
    (existing : UserDoc.t) :
  existing ∈ users (database st) ->
  UserDoc.username existing = UserSignup.username user ->
  exists body,
    signup w user st = (Ok body, st)
    /\ handle w (Signup user) st = (Http200 (AuthBody body), st)
    /\ AuthResponse.success body = false
    /\ AuthResponse.token body = None
    /\ (db_ready st = true ->
        store_fault w UsersFindByUsername = None ->
        AuthResponse.message body = Some "Username already exists").
Proof.
  intros Hin Hname.
  destruct (find_username_Some _ _ _ Hin Hname) as [found Hfound].
  assert (Hcases : exists body,
             signup w user st = (Ok body, st)
             /\ AuthResponse.success body = false
             /\ AuthResponse.token body = None
             /\ (db_ready st = true ->
                 store_fault w UsersFindByUsername = None ->
                 AuthResponse.message body = Some "Username already exists")).
  { unfold signup, _ensure_db, users_find_one. unfold_m.
    destruct (db_ready st); simpl.
    - destruct (store_fault w UsersFindByUsername) as [m|]; simpl.
      + eexists. split; [reflexivity|]. repeat split; discriminate.
      + rewrite Hfound, set_database_same. simpl.
        eexists. split; [reflexivity|]. repeat split.
    - eexists. split; [reflexivity|]. repeat split; discriminate. }
  destruct Hcases as (body & Hsignup & Hrest).
  exists body. split; [exact Hsignup|]. split; [|exact Hrest].
  simpl. unfold endpoint. rewrite Hsignup. reflexivity.
Qed.

Lemma signup_username_taken_witness :
  exists body,
    signup sample_world sample_signup populated_state = (Ok body, populated_state)
    /\ AuthResponse.success body = false
    /\ AuthResponse.token body = None
    /\ AuthResponse.message body = Some "Username already exists".
Proof.
  destruct (signup_username_taken sample_world sample_signup populated_state alice_doc)
    as (body & Hsignup & _ & Hfalse & Htoken & Hmessage).
  - apply list_elem_of_singleton. reflexivity.
  - reflexivity.
  - exists body. repeat split; try assumption.
    apply Hmessage; reflexivity.
Defined.

Lemma login_answers w user st :
  exists body,
    login w user st = (Ok body, st)
    /\ (AuthResponse.success body = false -> AuthResponse.token body = None).
Proof.
  unfold login, _ensure_db, users_find_one, _verify_password. unfold_m. simpl.
  case_world; rewrite ?set_database_same; eexists; (split; [reflexivity|]);
    simpl; auto; discriminate.
Qed.

(** C8 (amended).  A login that fails because the username matches no
    stored identity and a login that fails because bcrypt reports that the
    password does not match the stored hash receive, the store answering
    the lookup, the same answer, with success=false and without a token,
    and leave the same state behind: the answer does not tell whether the
    username exists.  Every login, whatever bcrypt and the store do, is
    answered with status 200, leaves the state as it was, and carries no
    token when it reports success=false. *)
Theorem login_failures_indistinguishable (w : World) (st : AppState)
    (unknown known : UserLogin.t) (doc : UserDoc.t) :
  db_ready st = true ->
  store_fault w UsersFindByUsername = None ->
  (forall d, d ∈ users (database st) ->
             UserDoc.username d <> UserLogin.username unknown) ->
  List.find (fun d => String.eqb (UserDoc.username d) (UserLogin.username known))
    (users (database st)) = Some doc ->
  bcrypt_checkpw w (UserLogin.password known) (UserDoc.password doc) = Returns false ->
  handle w (Login unknown) st = handle w (Login known) st
  /\ handle w (Login unknown) st = (Http200 (AuthBody invalid_login), st)
  /\ AuthResponse.success invalid_login = false
  /\ AuthResponse.token invalid_login = None
  /\ (forall w' user st',
        exists body,
          handle w' (Login user) st' = (Http200 (AuthBody body), st')
          /\ (AuthResponse.success body = false -> AuthResponse.token body = None)).
Proof.
  intros Hd Hfault Hunknown Hknown Hcheck.
  assert (H1 : handle w (Login unknown) st = (Http200 (AuthBody invalid_login), st)).
  { simpl. unfold endpoint, login, _ensure_db, users_find_one. unfold_m.
    rewrite Hd. simpl. rewrite Hfault, (find_username_None _ _ Hunknown).
    simpl. rewrite set_database_same. reflexivity. }
  assert (H2 : handle w (Login known) st = (Http200 (AuthBody invalid_login), st)).
  { simpl. unfold endpoint, login, _ensure_db, users_find_one, _verify_password.
    unfold_m. rewrite Hd. simpl. rewrite Hfault, Hknown. simpl.
    rewrite set_database_same, Hcheck. reflexivity. }
  rewrite H1, H2. repeat split.
  intros w' user st'. destruct (login_answers w' user st') as (body & Hlogin & Htoken).
  exists body. split; [|exact Htoken].
  simpl. unfold endpoint. rewrite Hlogin. reflexivity.
Qed.

Lemma login_failures_indistinguishable_witness :
  handle sample_world (Login unknown_login) populated_state
  = handle sample_world (Login wrong_password_login) populated_state.
Proof.
  destruct (login_failures_indistinguishable sample_world populated_state
              unknown_login wrong_password_login alice_doc) as [Hsame _].
  - reflexivity.
  - reflexivity.
  - intros d Hd. apply list_elem_of_singleton in Hd as ->. discriminate.
  - reflexivity.
  - reflexivity.
  - exact Hsame.
Defined.

(** C8 as stated fails: when the password check raises, which happens
    only after the username was found, the catch-all clause answers with
    the text of the exception, while a login under an unknown username is
    answered with "Invalid username or password"; the two answers differ
    and tell that the username exists. *)
Lemma login_exception_reveals_username :
  fst (handle checkpw_raising_world (Login unknown_login) populated_state)
  = Http200 (AuthBody invalid_login)
  /\ fst (handle checkpw_raising_world (Login wrong_password_login) populated_state)
     = Http200 (AuthBody
         {| AuthResponse.success := false; AuthResponse.token := None;
            AuthResponse.username := None;
            AuthResponse.message := Some "Invalid salt" |})
  /\ handle checkpw_raising_world (Login unknown_login) populated_state
     <> handle checkpw_raising_world (Login wrong_password_login) populated_state.
Proof.
  split; [vm_compute; reflexivity|]. split; [vm_compute; reflexivity|].
  vm_compute. discriminate.
Qed.

(** ** Chat history *)

#[local] Instance newest_first_trans : Transitive newest_first.
Proof. intros a b c. unfold newest_first. lia. Qed.

#[local] Instance newest_first_total : Total newest_first.
Proof. intros a b. unfold newest_first. lia. Qed.

Lemma strictly_sorted_of_distinct (l : list ChatMessage.t) :
  StronglySorted newest_first l ->
  NoDup (ChatMessage.timestamp <$> l) ->
  StronglySorted strictly_newer l.
Proof.
  induction 1 as [|a l Hsorted IH Hhead]; intros Hnodup; constructor.
  - apply IH. rewrite fmap_cons in Hnodup. apply NoDup_cons in Hnodup as [_ H].
    exact H.
  - rewrite fmap_cons in Hnodup. apply NoDup_cons in Hnodup as [Hfresh _].
    rewrite Forall_forall in Hhead. apply Forall_forall. intros b Hb.
    specialize (Hhead b Hb). unfold newest_first in Hhead. unfold strictly_newer.
    assert (ChatMessage.timestamp b <> ChatMessage.timestamp a).
    { intros Heq. apply Hfresh. rewrite <- Heq. apply list_elem_of_fmap_2. exact Hb. }
    lia.
Qed.

(** The page of the history query: the first [n] of the owner's records,
    newest first. *)
Lemma history_page_properties (uid : string) (l : list ChatMessage.t) (n : nat) :
  let owned := filter (fun m => ChatMessage.user_id m = uid) l in
  let page := take n (merge_sort newest_first owned) in
  (length page <= n)%nat
  /\ StronglySorted newest_first page
  /\ (NoDup (ChatMessage.timestamp <$> owned) -> StronglySorted strictly_newer page)
  /\ (forall m, m ∈ page -> m ∈ l /\ ChatMessage.user_id m = uid)
  /\ (forall m m',
        m ∈ l -> ChatMessage.user_id m = uid -> m ∉ page -> m' ∈ page ->
        ChatMessage.timestamp m <= ChatMessage.timestamp m')
  /\ ((forall m, m ∈ l -> ChatMessage.user_id m <> uid) -> page = []).
Proof.
  intros owned page.
  pose proof (StronglySorted_merge_sort newest_first owned) as Hsorted.
  pose proof (merge_sort_Permutation newest_first owned) as Hperm.
  rewrite <- (take_drop n (merge_sort newest_first owned)) in Hsorted.
  fold page in Hsorted.
  assert (Hpage : StronglySorted newest_first page)
    by (eapply StronglySorted_app_1_l; exact Hsorted).
  assert (Hsub : forall m, m ∈ page -> m ∈ owned).
  { intros m Hm. rewrite <- Hperm. eapply subseteq_take. exact Hm. }
  split; [|split; [|split; [|split; [|split]]]].
  - unfold page. rewrite length_take. lia.
  - exact Hpage.
  - intros Hnodup. apply strictly_sorted_of_distinct; [exact Hpage|].
    unfold page. rewrite fmap_take.
    eapply sublist_NoDup; [|apply sublist_take]. rewrite Hperm. exact Hnodup.
  - intros m Hm. apply Hsub in Hm. unfold owned in Hm.
    apply list_elem_of_filter in Hm as [Huid Hin]. auto.
  - intros m m' Hin Huid Hout Hm'.
    assert (Hm : m ∈ merge_sort newest_first owned).
    { rewrite Hperm. unfold owned. apply list_elem_of_filter. auto. }
    rewrite <- (take_drop n (merge_sort newest_first owned)) in Hm.
    fold page in Hm. apply elem_of_app in Hm as [Hm | Hm]; [destruct (Hout Hm)|].
    exact (StronglySorted_app_1_elem_of _ _ _ _ _ Hsorted Hm' Hm).
  - intros Hnone. apply elem_of_nil_inv. intros m Hm. apply Hsub in Hm.
    unfold owned in Hm. apply list_elem_of_filter in Hm as [Huid Hin].
    exact (Hnone _ Hin Huid).
Qed.

(** The first [n] of the sorted records are as many as there are, up to
    [n], and each is one of the owner's records. *)
Lemma history_page_complete (uid : string) (l : list ChatMessage.t) (n : nat) :
  let owned := filter (fun m => ChatMessage.user_id m = uid) l in
  let page := take n (merge_sort newest_first owned) in
  length page = min n (length owned)
  /\ page ⊆+ owned
  /\ ((length owned <= n)%nat -> page ≡ₚ owned).
Proof.
  intros owned page.
  pose proof (merge_sort_Permutation newest_first owned) as Hperm.
  split; [|split].
  - unfold page. rewrite length_take, (Permutation_length Hperm). reflexivity.
  - rewrite <- Hperm. apply sublist_submseteq, sublist_take.
  - intros Hlen. unfold page. rewrite take_ge; [exact Hperm|].
    rewrite (Permutation_length Hperm). exact Hlen.
Qed.

(** C9 (amended).  For an authenticated identity, with the store
    answering, the chat-history operation answers success=true with the
    min(50, n) newest of the n records that identity owns and with no
    record of another identity: every record returned is a stored record
    of the identity, none is returned more often than it is stored, the
    records left out are no newer than the ones returned, and the
    sequence is empty when the identity has no history.  The records are
    ordered newest first by timestamp: each is at least as new as all
    that follow it, and strictly newer when the identity's timestamps are
    pairwise distinct. *)
Theorem chat_history_newest_first (w : World) (credentials : option jwt.Token)
    (current_user : jwt.Payload) (st : AppState) :
  authenticate w credentials = Ok current_user ->
  db_ready st = true ->
  store_fault w ChatMessagesFind = None ->
  exists messages,
    handle w (ChatHistory credentials) st =
      (Http200 (HistoryBody
         {| HistoryResponse.success := true;
            HistoryResponse.messages := Some messages;
            HistoryResponse.error := None |}), st)
    /\ length messages
       = min 50 (length (owned_records (jwt.user_id current_user) (database st)))
    /\ (length messages <= 50)%nat
    /\ messages ⊆+ owned_records (jwt.user_id current_user) (database st)
    /\ ((length (owned_records (jwt.user_id current_user) (database st)) <= 50)%nat ->
        messages ≡ₚ owned_records (jwt.user_id current_user) (database st))
    /\ StronglySorted newest_first messages
    /\ (NoDup (owned_timestamps (jwt.user_id current_user) (database st)) ->
        StronglySorted strictly_newer messages)
    /\ (forall m,
          m ∈ messages ->
          m ∈ chat_messages (database st)
          /\ ChatMessage.user_id m = jwt.user_id current_user)
    /\ (forall m m',
          m ∈ chat_messages (database st) ->
          ChatMessage.user_id m = jwt.user_id current_user ->
          m ∉ messages -> m' ∈ messages ->
          ChatMessage.timestamp m <= ChatMessage.timestamp m')
    /\ ((forall m, m ∈ chat_messages (database st) ->
                   ChatMessage.user_id m <> jwt.user_id current_user) ->
        messages = []).
Proof.
  intros Ha Hd Hfault.
  exists (take 50 (merge_sort newest_first
            (filter (fun m => ChatMessage.user_id m = jwt.user_id current_user)
               (chat_messages (database st))))).
  split.
  - simpl. unfold endpoint, current_user_dependency, get_chat_history, _ensure_db,
      chat_messages_find. unfold_m.
    rewrite Ha, Hd, Hfault. simpl. rewrite set_database_same, take_take.
    reflexivity.
  - destruct (history_page_complete (jwt.user_id current_user)
                (chat_messages (database st)) 50) as (Hlen & Hsub & Hall).
    destruct (history_page_properties (jwt.user_id current_user)
                (chat_messages (database st)) 50) as (Hle & Hrest).
    unfold owned_records.
    split; [exact Hlen|]. split; [exact Hle|]. split; [exact Hsub|].
    split; [exact Hall|]. exact Hrest.
Qed.

Lemma chat_history_newest_first_witness :
  exists messages,
    handle (world_at 4600) (ChatHistory (Some sample_token)) populated_state =
      (Http200 (HistoryBody
         {| HistoryResponse.success := true;
            HistoryResponse.messages := Some messages;
            HistoryResponse.error := None |}), populated_state)
    /\ length messages = 2%nat
    /\ StronglySorted strictly_newer messages
    /\ forall m, m ∈ messages -> ChatMessage.user_id m = "id-1".
Proof.
  destruct (chat_history_newest_first (world_at 4600) (Some sample_token)
              {| jwt.user_id := "id-1"; jwt.username := "alice"; jwt.exp := 605800 |}
              populated_state)
    as (messages & Hhandle & Hlen & _ & _ & _ & _ & Hstrict & Howned & _).
  - vm_compute. reflexivity.
  - reflexivity.
  - reflexivity.
  - exists messages. split; [exact Hhandle|]. split; [|split].
    + rewrite Hlen. vm_compute. reflexivity.
    + apply Hstrict. apply (bool_decide_unpack _). vm_compute. reflexivity.
    + intros m Hm. apply (Howned m Hm).
Defined.

(** C9 as stated fails: two records of one identity with the same
    timestamp are both returned, and neither is strictly newer than the
    other. *)
Lemma equal_timestamps_not_strictly_ordered :
  fst (handle (world_at 4600) (ChatHistory (Some sample_token)) tied_state) =
    Http200 (HistoryBody
      {| HistoryResponse.success := true;
         HistoryResponse.messages := Some [tied_first; tied_second];
         HistoryResponse.error := None |})
  /\ ~ StronglySorted strictly_newer [tied_first; tied_second]
  /\ ~ StronglySorted strictly_newer [tied_second; tied_first].
Proof.
  split; [vm_compute; reflexivity|].
  split; intros Hsorted; apply StronglySorted_inv in Hsorted as [_ Hhead];
    apply Forall_cons in Hhead as [Hlt _]; unfold strictly_newer in Hlt;
    simpl in Hlt; lia.
Qed.

Example search_odd_counter :
  fst (handle odd_counter_world sample_search_request initial_state) =
    Http200 (SearchBody
      {| SearchResponse.success := false;
         SearchResponse.query := "rocq";
         SearchResponse.summary := "";
         SearchResponse.search_results := None;
         SearchResponse.sources_count := 0;
         SearchResponse.error := Some "invalid literal for int()" |}).
Proof. vm_compute. reflexivity. Qed.

Example chat_history_sample :
  fst (handle (world_at 4600) (ChatHistory (Some sample_token)) populated_state) =
    Http200 (HistoryBody
      {| HistoryResponse.success := true;
         HistoryResponse.messages := Some [record "id-1" 930; record "id-1" 910];
         HistoryResponse.error := None |}).
Proof. vm_compute. reflexivity. Qed.

(** * Further properties *)

(** ** What a request does to the store *)

Lemma reads_ret {A} (a : A) : reads_only (ret a).
Proof. intros st. reflexivity. Qed.

Lemma reads_raise {A} e : reads_only (@raise A e).
Proof. intros st. reflexivity. Qed.

Lemma reads_call {A} (x : ext A) : reads_only (call x).
Proof. intros st. reflexivity. Qed.

Lemma reads_bind {A B} (m : M A) (k : A -> M B) :
  reads_only m -> (forall a, reads_only (k a)) -> reads_only (bind m k).
Proof.
  intros Hm Hk st. unfold bind. specialize (Hm st).
  destruct (m st) as [[a|e] st']; simpl in *; [|exact Hm].
  rewrite Hk. exact Hm.
Qed.

Lemma reads_try_except {A} (m : M A) (h : exn -> M A) :
  reads_only m -> (forall e, reads_only (h e)) -> reads_only (try_except m h).
Proof.
  intros Hm Hh st. unfold try_except. specialize (Hm st).
  destruct (m st) as [[a|e] st']; simpl in *; [exact Hm|].
  rewrite Hh. exact Hm.
Qed.

Lemma reads_ensure_db : reads_only _ensure_db.
Proof. intros st. unfold _ensure_db. destruct (db_ready st); reflexivity. Qed.

Lemma reads_current_user w c : reads_only (current_user_dependency w c).
Proof. intros st. reflexivity. Qed.

Lemma reads_get_or_create_agent tag : reads_only (_get_or_create_agent tag).
Proof.
  intros st. destruct (agent_cache st !! tag) as [a|] eqn:Hc.
  - rewrite (resolve_cached _ _ _ Hc). reflexivity.
  - rewrite (resolve_absent _ _ Hc). destruct (class_of_tag tag); reflexivity.
Qed.

Lemma reads_users_find_one w op field value :
  reads_only (users_find_one w op field value).
Proof.
  intros st. unfold users_find_one, store_call.
  destruct (store_fault w op); reflexivity.
Qed.

Lemma reads_chat_messages_find w uid n k : reads_only (chat_messages_find w uid n k).
Proof.
  intros st. unfold chat_messages_find, store_call.
  destruct (store_fault w ChatMessagesFind); reflexivity.
Qed.

Lemma reads_except_raise {A} (f : exn -> A) e :
  reads_only (except_HTTPException_raise f e).
Proof. intros st. unfold except_HTTPException_raise. destruct e; reflexivity. Qed.

Lemma reads_except_Exception {A} (f : exn -> A) e : reads_only (except_Exception f e).
Proof. intros st. reflexivity. Qed.

Ltac reads_step :=
  lazymatch goal with
  | |- reads_only (_get_or_create_agent _) => apply reads_get_or_create_agent
  | |- reads_only _ensure_db => apply reads_ensure_db
  | |- reads_only (current_user_dependency _ _) => apply reads_current_user
  | |- reads_only (users_find_one _ _ _ _) => apply reads_users_find_one
  | |- reads_only (chat_messages_find _ _ _ _) => apply reads_chat_messages_find
  | |- reads_only (except_HTTPException_raise _ _) => apply reads_except_raise
  | |- reads_only (except_Exception _ _) => apply reads_except_Exception
  | |- reads_only (call _) => apply reads_call
  | |- reads_only (ret _) => apply reads_ret
  | |- reads_only (raise _) => apply reads_raise
  | |- reads_only (bind _ _) => apply reads_bind
  | |- reads_only (try_except _ _) => apply reads_try_except
  | |- reads_only (match ?x with _ => _ end) => destruct x
  | |- reads_only _ => fail
  | |- _ => intro
  end.

Ltac reads := repeat reads_step.

Lemma reads_login w user : reads_only (login w user).
Proof. unfold login, _verify_password. reads. Qed.

Lemma reads_get_chat_history w u : reads_only (get_chat_history w u).
Proof. unfold get_chat_history. reads. Qed.

Lemma reads_get_daily_quote w u : reads_only (get_daily_quote w u).
Proof. unfold get_daily_quote. reads. Qed.

Lemma reads_chat_with_agent w r : reads_only (chat_with_agent w r).
Proof. unfold chat_with_agent, validate_metadata. reads. Qed.

Lemma reads_search_and_summarize w r : reads_only (search_and_summarize w r).
Proof. unfold search_and_summarize, py_int. reads. Qed.

Lemma reads_get_agent_capabilities w : reads_only (get_agent_capabilities w).
Proof. unfold get_agent_capabilities. reads. Qed.

Lemma signup_store_effect w user st :
  store_effect w st (Signup user) (database (snd (signup w user st))).
Proof.
  unfold signup, _ensure_db, users_find_one, users_insert_one, _hash_password.
  unfold_m. simpl. case_world; simpl in *; try apply effect_none.
  eapply effect_signup; eassumption.
Qed.

Lemma motivational_chat_store_effect w c r u st :
  authenticate w c = Ok u ->
  store_effect w st (CompanionChat c r) (database (snd (motivational_chat w r u st))).
Proof.
  intros Ha. unfold motivational_chat, _ensure_db, chat_messages_insert_one.
  unfold_m. destruct (db_ready st); simpl; [|apply effect_none].
  destruct (resolve_fixed "chat" st ltac:(auto)) as (a & st' & Hres & _ & Hdb).
  rewrite Hres. case_world; simpl in *; rewrite ?Hdb; try apply effect_none.
  eapply effect_companion_chat. exact Ha.
Qed.

(** The store after a request, against the store before it. *)
Lemma handle_store_effect w req st :
  store_effect w st req (database (snd (handle w req st))).
Proof.
  destruct req as [user|user|c r|c|c|r|r|]; simpl; rewrite snd_endpoint.
  - apply signup_store_effect.
  - rewrite reads_login. apply effect_none.
  - unfold bind, current_user_dependency.
    destruct (authenticate w c) as [u|e] eqn:Ha; simpl; [|apply effect_none].
    apply motivational_chat_store_effect. exact Ha.
  - rewrite reads_bind; [apply effect_none|apply reads_current_user|].
    intros u. apply reads_get_daily_quote.
  - rewrite reads_bind; [apply effect_none|apply reads_current_user|].
    intros u. apply reads_get_chat_history.
  - rewrite reads_chat_with_agent. apply effect_none.
  - rewrite reads_search_and_summarize. apply effect_none.
  - rewrite reads_get_agent_capabilities. apply effect_none.
Qed.

(** X1.  Serving a request changes the user collection only by the one
    document a signup appends, and the chat-message collection only by the
    one record a companion chat appends under the authenticated identity;
    login, chat history, daily quote, generic agent chat, search and
    capabilities leave the store as it is. *)
Theorem store_written_by_signup_and_chat_only (w : World) (req : Request)
    (st : AppState) :
  (users (database (snd (handle w req st))) = users (database st)
   \/ exists user hashed,
        req = Signup user
        /\ users (database (snd (handle w req st)))
           = (users (database st) ++ [new_user_doc w user hashed])%list)
  /\ (chat_messages (database (snd (handle w req st))) = chat_messages (database st)
      \/ exists credentials chat_req current_user response,
           req = CompanionChat credentials chat_req
           /\ authenticate w credentials = Ok current_user
           /\ chat_messages (database (snd (handle w req st)))
              = (chat_messages (database st) ++
                   [new_chat_message w (jwt.user_id current_user)
                      (MotivationalChatRequest.message chat_req) response])%list)
  /\ (match req with
      | Signup _ | CompanionChat _ _ => True
      | _ => database (snd (handle w req st)) = database st
      end).
Proof.
  pose proof (handle_store_effect w req st) as Heff.
  set (d' := database (snd (handle w req st))) in *. clearbody d'.
  destruct Heff as [req | user hashed Hu He Hh | c r u response Ha]; simpl.
  - split; [auto|]. split; [auto|]. destruct req; auto.
  - split; [right; eauto|]. split; [left; reflexivity|exact I].
  - split; [left; reflexivity|]. split; [|exact I].
    right. eexists _, _, _, _. eauto.
Qed.

Lemma find_field_None (field : UserDoc.t -> string) (l : list UserDoc.t) value :
  List.find (fun d => String.eqb (field d) value) l = None ->
  value ∉ field <$> l.
Proof.
  intros Hfind Hin. apply list_elem_of_fmap in Hin as (doc & -> & Hdoc).
  apply list_elem_of_In in Hdoc.
  pose proof (List.find_none _ _ Hfind _ Hdoc) as Hneq. simpl in Hneq.
  rewrite String.eqb_refl in Hneq. discriminate.
Qed.

Lemma NoDup_snoc_fresh {A} (l : list A) (x : A) :
  NoDup l -> x ∉ l -> NoDup (l ++ [x])%list.
Proof.
  intros Hl Hx. apply NoDup_app. split; [exact Hl|]. split.
  - intros y Hy Hyx. apply list_elem_of_singleton in Hyx as ->. exact (Hx Hy).
  - apply NoDup_singleton.
Qed.

Lemma store_effect_unique w st req d :
  store_effect w st req d -> users_unique (database st) -> users_unique d.
Proof.
  intros [req' | user hashed Hu He Hh | c r u response Ha] [Hnames Hemails].
  - split; assumption.
  - split; simpl; rewrite fmap_app; apply NoDup_snoc_fresh; try assumption.
    + exact (find_field_None UserDoc.username _ _ Hu).
    + exact (find_field_None UserDoc.email _ _ He).
  - split; assumption.
Qed.

Lemma store_effect_prefix w st req d :
  store_effect w st req d ->
  users (database st) `prefix_of` users d
  /\ chat_messages (database st) `prefix_of` chat_messages d.
Proof.
  intros [req' | user hashed Hu He Hh | c r u response Ha]; simpl; split;
    try reflexivity; apply prefix_app_r; reflexivity.
Qed.

(** X3.  The store is append-only: after any sequence of requests the
    documents of both collections that were stored before are still there,
    unchanged and in the same order, at the front of the collections. *)
Theorem store_is_append_only (reqs : list (World * Request)) (st : AppState) :
  users (database st) `prefix_of` users (database (serve_all reqs st))
  /\ chat_messages (database st)
     `prefix_of` chat_messages (database (serve_all reqs st)).
Proof.
  revert st. induction reqs as [|[w req] rest IH]; intros st; simpl.
  - split; reflexivity.
  - destruct (store_effect_prefix _ _ _ _ (handle_store_effect w req st)) as [Hu Hc].
    destruct (IH (snd (handle w req st))) as [Hu' Hc'].
    split; etrans; eassumption.
Qed.

(** ** Signup and login, continued *)

Lemma find_field_Some (field : UserDoc.t -> string) (l : list UserDoc.t) value doc :
  doc ∈ l -> field doc = value ->
  exists found, List.find (fun d => String.eqb (field d) value) l = Some found.
Proof.
  intros Hin Hvalue.
  destruct (List.find _ l) as [found|] eqn:Hfind; [eauto|].
  apply list_elem_of_In in Hin.
  pose proof (List.find_none _ _ Hfind _ Hin) as Hneq. simpl in Hneq.
  rewrite Hvalue, String.eqb_refl in Hneq. discriminate.
Qed.

Lemma field_absent_find_None (field : UserDoc.t -> string) (l : list UserDoc.t) value :
  (forall doc, doc ∈ l -> field doc <> value) ->
  List.find (fun d => String.eqb (field d) value) l = None.
Proof.
  intros Hnone. destruct (List.find _ l) as [found|] eqn:Hfind; [|reflexivity].
  apply List.find_some in Hfind as [Hin Heq]. apply list_elem_of_In in Hin.
  apply String.eqb_eq in Heq. destruct (Hnone _ Hin Heq).
Qed.

(** X4.  A signup whose username is free but whose email is that of a
    stored identity is answered, when the store answers both lookups, with
    success=false, the message "Email already exists" and no token, and
    leaves the state as it was. *)
Theorem signup_email_taken (w : World) (user : UserSignup.t) (st : AppState)
    (existing : UserDoc.t) :
  db_ready st = true ->
  store_fault w UsersFindByUsername = None ->
  store_fault w UsersFindByEmail = None ->
  (forall doc, doc ∈ users (database st) ->
               UserDoc.username doc <> UserSignup.username user) ->
  existing ∈ users (database st) ->
  UserDoc.email existing = UserSignup.email user ->
  handle w (Signup user) st =
    (Http200 (AuthBody
       {| AuthResponse.success := false; AuthResponse.token := None;
          AuthResponse.username := None;
          AuthResponse.message := Some "Email already exists" |}), st).
Proof.
  intros Hd Hf1 Hf2 Hfree Hin Hemail.
  destruct (find_field_Some UserDoc.email _ _ _ Hin Hemail) as [found Hfound].
  simpl. unfold endpoint, signup, _ensure_db, users_find_one. unfold_m.
  rewrite Hd. simpl. rewrite Hf1, (field_absent_find_None UserDoc.username _ _ Hfree).
  simpl. rewrite Hf2, Hfound. simpl. rewrite !set_database_same. reflexivity.
Qed.

Lemma signup_email_taken_witness :
  fst (handle sample_world
         (Signup {| UserSignup.username := "alicia";
                    UserSignup.email := "alice@example.com";
                    UserSignup.password := "pw" |}) populated_state)
  = Http200 (AuthBody
      {| AuthResponse.success := false; AuthResponse.token := None;
         AuthResponse.username := None;
         AuthResponse.message := Some "Email already exists" |}).
Proof.
  rewrite (signup_email_taken sample_world
             {| UserSignup.username := "alicia";
                UserSignup.email := "alice@example.com";
                UserSignup.password := "pw" |} populated_state alice_doc).
  - reflexivity.
  - reflexivity.
  - reflexivity.
  - reflexivity.
  - intros doc Hdoc. apply list_elem_of_singleton in Hdoc as ->. discriminate.
  - apply list_elem_of_singleton. reflexivity.
  - reflexivity.
Defined.

(** X5.  While the database handle is unset, signup and login do not
    answer with a status code of their own: their catch-all clause also
    catches the 503 of [_ensure_db], and both answer 200 with
    success=false, no token and the message "503: Database not ready",
    leaving the state as it was. *)
Theorem signup_and_login_swallow_503 (w : World) (user : UserSignup.t)
    (credentials : UserLogin.t) (st : AppState) :
  db_ready st = false ->
  handle w (Signup user) st =
    (Http200 (AuthBody
       {| AuthResponse.success := false; AuthResponse.token := None;
          AuthResponse.username := None;
          AuthResponse.message := Some "503: Database not ready" |}), st)
  /\ handle w (Login credentials) st = handle w (Signup user) st.
Proof.
  intros Hd. simpl. unfold endpoint, signup, login, _ensure_db. unfold_m.
  rewrite Hd. simpl. split; reflexivity.
Qed.

Lemma signup_and_login_swallow_503_witness :
  fst (handle sample_world (Login unknown_login)
         {| db_ready := false; database := {| users := []; chat_messages := [] |};
            agent_cache := ∅; constructed := 0 |})
  = Http200 (AuthBody
      {| AuthResponse.success := false; AuthResponse.token := None;
         AuthResponse.username := None;
         AuthResponse.message := Some "503: Database not ready" |}).
Proof.
  destruct (signup_and_login_swallow_503 sample_world sample_signup unknown_login
              {| db_ready := false; database := {| users := []; chat_messages := [] |};
                 agent_cache := ∅; constructed := 0 |}) as [Hsignup Hlogin].
  - reflexivity.
  - rewrite Hlogin, Hsignup. reflexivity.
Defined.

Lemma find_snoc {A} (p : A -> bool) (l : list A) (x : A) :
  List.find p l = None -> p x = true -> List.find p (l ++ [x]) = Some x.
Proof.
  induction l as [|y l IH]; simpl; intros Hnone Hx.
  - rewrite Hx. reflexivity.
  - destruct (p y); [discriminate|]. apply IH; assumption.
Qed.

Lemma signup_success_state w user st body st' :
  signup w user st = (Ok body, st') ->
  AuthResponse.success body = true ->
  db_ready st = true
  /\ exists hashed,
       bcrypt_hashpw w (UserSignup.password user) = Returns hashed
       /\ List.find
            (fun d => String.eqb (UserDoc.username d) (UserSignup.username user))
            (users (database st)) = None
       /\ st' = set_database
                  {| users := users (database st) ++ [new_user_doc w user hashed];
                     chat_messages := chat_messages (database st) |} st.
Proof.
  unfold signup, _ensure_db, users_find_one, users_insert_one, _hash_password.
  unfold_m. simpl. case_world; intros [= <- <-]; try discriminate.
  intros _. simpl in *. split; [reflexivity|]. eexists. split; [reflexivity|].
  split; [reflexivity|]. rewrite !set_database_same. reflexivity.
Qed.

(** X6.  After a successful signup, a login with the same username and
    password, checked by bcrypt against the hash the signup stored,
    succeeds without changing the state and returns the username and a
    token; that token, verified under the same secret before its expiry,
    yields the identifier the signup assigned and the username. *)
Theorem login_after_signup (w w2 w3 : World) (user : UserSignup.t)
    (st st' : AppState) (body : AuthResponse.t) (hashed : string) :
  signup w user st = (Ok body, st') ->
  AuthResponse.success body = true ->
  bcrypt_hashpw w (UserSignup.password user) = Returns hashed ->
  bcrypt_checkpw w2 (UserSignup.password user) hashed = Returns true ->
  store_fault w2 UsersFindByUsername = None ->
  JWT_SECRET w3 = JWT_SECRET w2 ->
  now w3 < now w2 + 604800 ->
  exists token,
    handle w2 (Login (login_of user)) st' =
      (Http200 (AuthBody
         {| AuthResponse.success := true; AuthResponse.token := Some token;
            AuthResponse.username := Some (UserSignup.username user);
            AuthResponse.message := Some "Login successful" |}), st')
    /\ authenticate w3 (Some token) =
         Ok {| jwt.user_id := uuid4 w;
               jwt.username := UserSignup.username user;
               jwt.exp := now w2 + 604800 |}.
Proof.
  intros Hsignup Hok Hhash Hcheck Hfault Hsecret Hnow.
  destruct (signup_success_state _ _ _ _ _ Hsignup Hok)
    as (Hd & hashed' & Hhash' & Hfree & ->).
  rewrite Hhash in Hhash'. injection Hhash' as <-.
  eexists. split.
  - simpl. unfold endpoint, login, _ensure_db, users_find_one, _verify_password.
    unfold_m. simpl. rewrite Hd. simpl. rewrite Hfault.
    rewrite (find_snoc _ _ (new_user_doc w user hashed) Hfree)
      by (simpl; apply String.eqb_refl).
    simpl. rewrite Hcheck. simpl. reflexivity.
  - unfold authenticate, security, _create_token, jwt.encode.
    rewrite <- Hsecret, verify_issued. simpl.
    destruct (Z.leb_spec (now w2 + 86400 * 7) (now w3)); [lia|reflexivity].
Qed.

Lemma login_after_signup_witness :
  exists token,
    fst (handle (world_at 2000) (Login (login_of sample_signup))
           (snd (signup sample_world sample_signup initial_state)))
    = Http200 (AuthBody
        {| AuthResponse.success := true; AuthResponse.token := Some token;
           AuthResponse.username := Some "alice";
           AuthResponse.message := Some "Login successful" |})
    /\ authenticate (world_at 3000) (Some token) =
         Ok {| jwt.user_id := "id-1"; jwt.username := "alice";
               jwt.exp := 606800 |}.
Proof.
  destruct (login_after_signup sample_world (world_at 2000) (world_at 3000)
              sample_signup initial_state
              (snd (signup sample_world sample_signup initial_state))
              {| AuthResponse.success := true;
                 AuthResponse.token := Some (_create_token sample_world "id-1" "alice");
                 AuthResponse.username := Some "alice";
                 AuthResponse.message := Some "Account created successfully" |}
              "hash:testpass123") as (token & Hlogin & Hverify).
  - vm_compute. reflexivity.
  - reflexivity.
  - reflexivity.
  - reflexivity.
  - reflexivity.
  - reflexivity.
  - vm_compute. reflexivity.
  - exists token. rewrite Hlogin. split; [reflexivity|exact Hverify].
Defined.

(** ** Companion chat and its history *)

Lemma motivational_chat_outcome w r u st :
  match fst (motivational_chat w r u st) with
  | Ok b =>
      if MotivationalChatResponse.success b then
        db_ready st = true
        /\ database (snd (motivational_chat w r u st)) =
             {| users := users (database st);
                chat_messages :=
                  chat_messages (database st) ++
                    [new_chat_message w (jwt.user_id u)
                       (MotivationalChatRequest.message r)
                       (MotivationalChatResponse.response b)] |}
      else database (snd (motivational_chat w r u st)) = database st
  | Raise _ => database (snd (motivational_chat w r u st)) = database st
  end.
Proof.
  unfold motivational_chat, _ensure_db, chat_messages_insert_one. unfold_m.
  destruct (db_ready st); simpl; [|reflexivity].
  destruct (resolve_fixed "chat" st ltac:(auto)) as (a & st' & Hres & _ & Hdb).
  rewrite Hres. case_world; simpl in *; rewrite ?Hdb; auto.
Qed.

(** X7.  A companion chat appends a record exactly when its response
    reports success: the record then carries the authenticated identity,
    the submitted message and the very response text returned to the
    client; in every other outcome (failure body or status code) the store
    is left as it was. *)
Theorem companion_chat_persists_iff_success (w : World)
    (credentials : option jwt.Token) (chat_req : MotivationalChatRequest.t)
    (st : AppState) :
  match fst (handle w (CompanionChat credentials chat_req) st) with
  | Http200 (MotivationalChatBody b) =>
      if MotivationalChatResponse.success b then
        exists current_user,
          authenticate w credentials = Ok current_user
          /\ database (snd (handle w (CompanionChat credentials chat_req) st)) =
               {| users := users (database st);
                  chat_messages :=
                    chat_messages (database st) ++
                      [new_chat_message w (jwt.user_id current_user)
                         (MotivationalChatRequest.message chat_req)
                         (MotivationalChatResponse.response b)] |}
      else database (snd (handle w (CompanionChat credentials chat_req) st))
           = database st
  | _ => database (snd (handle w (CompanionChat credentials chat_req) st))
         = database st
  end.
Proof.
  simpl. rewrite fst_endpoint, snd_endpoint. unfold bind, current_user_dependency.
  destruct (authenticate w credentials) as [u|[c d|m]] eqn:Ha; simpl;
    try reflexivity.
  pose proof (motivational_chat_outcome w chat_req u st) as Hout.
  destruct (fst (motivational_chat w chat_req u st)) as [b|[c d|m]]; simpl;
    try exact Hout.
  destruct (MotivationalChatResponse.success b); [|exact Hout].
  exists u. split; [reflexivity|apply Hout].
Qed.

Lemma chat_history_fst w c st :
  fst (handle w (ChatHistory c) st) =
    match authenticate w c with
    | Ok u =>
        if db_ready st then
          match store_fault w ChatMessagesFind with
          | Some m =>
              Http200 (HistoryBody
                {| HistoryResponse.success := false;
                   HistoryResponse.messages := None;
                   HistoryResponse.error := Some m |})
          | None =>
              Http200 (HistoryBody
                {| HistoryResponse.success := true;
                   HistoryResponse.messages :=
                     Some (history_page (jwt.user_id u)
                             (chat_messages (database st)));
                   HistoryResponse.error := None |})
          end
        else HttpError 503 "Database not ready"
    | Raise e => respond HistoryBody (Raise e)
    end.
Proof.
  simpl. rewrite authenticated_endpoint.
  destruct (authenticate w c) as [u|e]; [|reflexivity].
  unfold get_chat_history, _ensure_db, chat_messages_find. unfold_m.
  destruct (db_ready st); simpl; [|reflexivity].
  destruct (store_fault w ChatMessagesFind); simpl; [reflexivity|].
  unfold history_page. rewrite take_take. reflexivity.
Qed.

Lemma history_page_newest (uid : string) (l : list ChatMessage.t)
    (rec : ChatMessage.t) :
  ChatMessage.user_id rec = uid ->
  (forall m, m ∈ l -> ChatMessage.user_id m = uid ->
             ChatMessage.timestamp m < ChatMessage.timestamp rec) ->
  exists rest, history_page uid (l ++ [rec])%list = rec :: rest.
Proof.
  intros Hown Hnewer. unfold history_page.
  set (owned := filter (fun m => ChatMessage.user_id m = uid) (l ++ [rec])%list).
  pose proof (StronglySorted_merge_sort newest_first owned) as Hsorted.
  pose proof (merge_sort_Permutation newest_first owned) as Hperm.
  assert (Hrec : rec ∈ merge_sort newest_first owned).
  { rewrite Hperm. unfold owned. apply list_elem_of_filter. split; [exact Hown|].
    apply elem_of_app. right. apply list_elem_of_singleton. reflexivity. }
  destruct (merge_sort newest_first owned) as [|h t] eqn:Hm.
  - apply elem_of_nil in Hrec. destruct Hrec.
  - assert (Hh : h ∈ owned) by (rewrite <- Hperm; apply elem_of_cons; auto).
    unfold owned in Hh. apply list_elem_of_filter in Hh as [Hhown Hhin].
    assert (h = rec) as ->.
    { apply elem_of_app in Hhin as [Hold | Hnew].
      - apply elem_of_cons in Hrec as [-> | Hrec]; [reflexivity|].
        apply StronglySorted_inv in Hsorted as [_ Hhead].
        rewrite Forall_forall in Hhead. specialize (Hhead _ Hrec).
        unfold newest_first in Hhead. specialize (Hnewer _ Hold Hhown). lia.
      - apply list_elem_of_singleton in Hnew. exact Hnew. }
    exists (take 49 t). reflexivity.
Qed.

Lemma companion_chat_success w c r st u b :
  fst (handle w (CompanionChat c r) st) = Http200 (MotivationalChatBody b) ->
  MotivationalChatResponse.success b = true ->
  authenticate w c = Ok u ->
  db_ready (snd (handle w (CompanionChat c r) st)) = true
  /\ database (snd (handle w (CompanionChat c r) st)) =
       {| users := users (database st);
          chat_messages :=
            chat_messages (database st) ++
              [new_chat_message w (jwt.user_id u)
                 (MotivationalChatRequest.message r)
                 (MotivationalChatResponse.response b)] |}.
Proof.
  intros Hresp Hok Ha.
  destruct (handle_grows w (CompanionChat c r) st) as (Hready & _).
  revert Hresp Hready. simpl. rewrite fst_endpoint, snd_endpoint.
  unfold bind, current_user_dependency. rewrite Ha. simpl.
  pose proof (motivational_chat_outcome w r u st) as Hout.
  destruct (fst (motivational_chat w r u st)) as [b'|[c' d|m]];
    simpl; try discriminate.
  intros [= ->] Hready. rewrite Hok in Hout. destruct Hout as [Hd Hdb].
  split; [congruence|exact Hdb].
Qed.

(** X8.  After a companion chat that reports success, the history of the
    same identity starts with the record of that exchange, provided its
    timestamp is later than those of the identity's earlier records. *)
Theorem chat_is_newest_history_entry (w w2 : World)
    (credentials credentials2 : option jwt.Token)
    (chat_req : MotivationalChatRequest.t) (st : AppState)
    (current_user reader : jwt.Payload) (b : MotivationalChatResponse.t) :
  fst (handle w (CompanionChat credentials chat_req) st)
  = Http200 (MotivationalChatBody b) ->
  MotivationalChatResponse.success b = true ->
  authenticate w credentials = Ok current_user ->
  authenticate w2 credentials2 = Ok reader ->
  jwt.user_id reader = jwt.user_id current_user ->
  store_fault w2 ChatMessagesFind = None ->
  (forall m, m ∈ chat_messages (database st) ->
             ChatMessage.user_id m = jwt.user_id current_user ->
             ChatMessage.timestamp m < now w) ->
  exists rest,
    fst (handle w2 (ChatHistory credentials2)
           (snd (handle w (CompanionChat credentials chat_req) st)))
    = Http200 (HistoryBody
        {| HistoryResponse.success := true;
           HistoryResponse.messages :=
             Some (new_chat_message w (jwt.user_id current_user)
                     (MotivationalChatRequest.message chat_req)
                     (MotivationalChatResponse.response b) :: rest);
           HistoryResponse.error := None |}).
Proof.
  intros Hresp Hok Ha Ha2 Hsame Hfault Hnewer.
  destruct (companion_chat_success _ _ _ _ _ _ Hresp Hok Ha) as [Hready Hdb].
  rewrite chat_history_fst, Ha2, Hready, Hfault, Hdb, Hsame. simpl.
  destruct (history_page_newest (jwt.user_id current_user)
              (chat_messages (database st))
              (new_chat_message w (jwt.user_id current_user)
                 (MotivationalChatRequest.message chat_req)
                 (MotivationalChatResponse.response b)) eq_refl Hnewer)
    as [rest ->].
  exists rest. reflexivity.
Qed.

Lemma chat_is_newest_history_entry_witness :
  exists rest,
    fst (handle (world_at 2000) (ChatHistory (Some sample_token))
           (snd (handle sample_world sample_chat_request populated_state)))
    = Http200 (HistoryBody
        {| HistoryResponse.success := true;
           HistoryResponse.messages :=
             Some (new_chat_message sample_world "id-1" "I'm feeling down today"
                     "You can do it" :: rest);
           HistoryResponse.error := None |}).
Proof.
  apply (chat_is_newest_history_entry sample_world (world_at 2000)
           (Some sample_token) (Some sample_token)
           {| MotivationalChatRequest.message := "I'm feeling down today" |}
           populated_state
           {| jwt.user_id := "id-1"; jwt.username := "alice"; jwt.exp := 605800 |}
           {| jwt.user_id := "id-1"; jwt.username := "alice"; jwt.exp := 605800 |}
           {| MotivationalChatResponse.success := true;
              MotivationalChatResponse.response := "You can do it";
              MotivationalChatResponse.timestamp := 1000;
              MotivationalChatResponse.error := None |}).
  - vm_compute. reflexivity.
  - reflexivity.
  - vm_compute. reflexivity.
  - vm_compute. reflexivity.
  - reflexivity.
  - reflexivity.
  - intros m Hm _. simpl in Hm.
    repeat (apply elem_of_cons in Hm as [-> | Hm]; [vm_compute; reflexivity|]).
    apply elem_of_nil in Hm. destruct Hm.
Defined.

Lemma history_page_snoc_other (uid : string) (l : list ChatMessage.t)
    (rec : ChatMessage.t) :
  ChatMessage.user_id rec <> uid ->
  history_page uid (l ++ [rec])%list = history_page uid l.
Proof.
  intros Hother. unfold history_page. rewrite filter_app.
  rewrite (filter_cons_False _ rec [] Hother), filter_nil, app_nil_r.
  reflexivity.
Qed.

(** X9.  What the history operation answers to an identity is not changed
    by any request other than a companion chat of that same identity: in
    particular a companion chat of another identity, and every signup,
    leave it as it was. *)
Theorem history_unaffected_by_other_requests (w w2 : World) (req : Request)
    (credentials2 : option jwt.Token) (reader : jwt.Payload) (st : AppState) :
  authenticate w2 credentials2 = Ok reader ->
  (forall credentials chat_req current_user,
     req = CompanionChat credentials chat_req ->
     authenticate w credentials = Ok current_user ->
     jwt.user_id current_user <> jwt.user_id reader) ->
  fst (handle w2 (ChatHistory credentials2) (snd (handle w req st)))
  = fst (handle w2 (ChatHistory credentials2) st).
Proof.
  intros Ha2 Hother. rewrite !chat_history_fst, Ha2.
  destruct (handle_grows w req st) as (-> & _).
  destruct (db_ready st); [|reflexivity].
  destruct (store_fault w2 ChatMessagesFind); [reflexivity|].
  pose proof (handle_store_effect w req st) as Heff.
  set (d' := database (snd (handle w req st))) in *. clearbody d'.
  destruct Heff as [req | user hashed Hu He Hh | c r u response Ha]; simpl.
  - reflexivity.
  - reflexivity.
  - rewrite history_page_snoc_other; [reflexivity|].
    simpl. exact (Hother c r u eq_refl Ha).
Qed.

Lemma history_unaffected_by_other_requests_witness :
  fst (handle (world_at 2000)
         (ChatHistory (Some (_create_token sample_world "id-9" "bob")))
         (snd (handle sample_world sample_chat_request populated_state)))
  = fst (handle (world_at 2000)
           (ChatHistory (Some (_create_token sample_world "id-9" "bob")))
           populated_state).
Proof.
  apply (history_unaffected_by_other_requests sample_world (world_at 2000)
           sample_chat_request (Some (_create_token sample_world "id-9" "bob"))
           {| jwt.user_id := "id-9"; jwt.username := "bob"; jwt.exp := 605800 |}
           populated_state).
  - vm_compute. reflexivity.
  - intros credentials chat_req current_user [= <- <-] Ha.
    vm_compute in Ha. injection Ha as <-. discriminate.
Defined.

(** ** Rejected and failing requests *)

(** X10.  An identity-scoped request whose authentication fails is
    answered with the status code of that failure and leaves the whole
    state, store and agent cache alike, as it was; the answer is the same
    in every world with the same secret and clock, whatever its agents and
    its store would do. *)
Theorem authentication_failure_touches_nothing (w w' : World) (req : Request)
    (credentials : option jwt.Token) (status : Z) (detail : string)
    (st : AppState) :
  credentials_of req = Some credentials ->
  authenticate w credentials = Raise (HTTPException status detail) ->
  JWT_SECRET w' = JWT_SECRET w ->
  now w' = now w ->
  handle w req st = (HttpError status detail, st)
  /\ handle w' req st = (HttpError status detail, st).
Proof.
  intros Hcr Ha Hsecret Hnow.
  assert (Ha' : authenticate w' credentials = Raise (HTTPException status detail)).
  { revert Ha. unfold authenticate, _get_current_user.
    rewrite Hsecret, Hnow. auto. }
  destruct req; try discriminate; injection Hcr as ->; simpl;
    unfold endpoint, bind, current_user_dependency; rewrite Ha, Ha';
    split; reflexivity.
Qed.

Lemma authentication_failure_touches_nothing_witness :
  handle append_failing_world (CompanionChat None
    {| MotivationalChatRequest.message := "Hello" |}) populated_state
  = (HttpError 403 "Not authenticated", populated_state).
Proof.
  destruct (authentication_failure_touches_nothing sample_world append_failing_world
              (CompanionChat None {| MotivationalChatRequest.message := "Hello" |})
              None 403 "Not authenticated" populated_state) as [_ H].
  - reflexivity.
  - reflexivity.
  - reflexivity.
  - reflexivity.
  - exact H.
Defined.

(** X11.  When the agent an operation invokes raises instead of
    answering, companion chat, daily quote, search and generic agent chat
    all answer 200 with success=false, an empty primary content field and
    the text of the exception as the error string. *)
Theorem agent_exception_is_reported (w : World) (req : Request) (st : AppState)
    (failure : string) :
  agent_invocation w req st = Some (Throws failure) ->
  (forall status detail, ~ transport_failure w st req status detail) ->
  exists body,
    fst (handle w req st) = Http200 body
    /\ body_success body = false
    /\ primary_content body = Some ""
    /\ body_error body = Some failure.
Proof.
  intros Hinv Hno.
  destruct req as [user|user|cr r|cr|cr|r|r|]; try discriminate; simpl in *.
  - destruct (no_failure_authenticated w st _ cr Hno eq_refl) as [u Ha].
    pose proof (no_failure_db_ready w st _ cr Hno eq_refl eq_refl) as Hd.
    rewrite authenticated_endpoint, Ha.
    unfold motivational_chat, _ensure_db. unfold_m. rewrite Hd.
    destruct (resolve_fixed "chat" st ltac:(auto)) as (a & st' & Hres & _).
    rewrite Hres in *. simpl in Hinv. injection Hinv as ->. simpl.
    eexists. repeat split.
  - destruct (no_failure_authenticated w st _ cr Hno eq_refl) as [u Ha].
    rewrite authenticated_endpoint, Ha.
    unfold get_daily_quote. unfold_m.
    destruct (resolve_fixed "chat" st ltac:(auto)) as (a & st' & Hres & _).
    rewrite Hres in *. simpl in Hinv. injection Hinv as ->. simpl.
    eexists. repeat split.
  - rewrite fst_endpoint. unfold chat_with_agent. unfold_m.
    destruct (_get_or_create_agent (ChatRequest.agent_type r) st) as [[a|e] st'];
      simpl in Hinv; [|discriminate].
    injection Hinv as ->. simpl. eexists. repeat split.
  - rewrite fst_endpoint. unfold search_and_summarize. unfold_m.
    destruct (resolve_fixed "search" st ltac:(auto)) as (a & st' & Hres & _).
    rewrite Hres in *. simpl in Hinv. injection Hinv as ->. simpl.
    eexists. repeat split.
Qed.

Lemma agent_exception_is_reported_witness :
  exists body,
    fst (handle agent_raising_world sample_search_request initial_state)
    = Http200 body
    /\ body_success body = false
    /\ primary_content body = Some ""
    /\ body_error body = Some "store unavailable".
Proof.
  apply (agent_exception_is_reported agent_raising_world sample_search_request
           initial_state "store unavailable").
  - vm_compute. reflexivity.
  - intros status detail. apply search_no_transport_failure.
Defined.

(** ** The agent cache over a run of the service *)

Lemma leads_ret {A} (a : A) : leads (ret a).
Proof. intros st. apply reaches_refl. Qed.

Lemma leads_raise {A} e : leads (@raise A e).
Proof. intros st. apply reaches_refl. Qed.

Lemma leads_call {A} (x : ext A) : leads (call x).
Proof. intros st. apply reaches_refl. Qed.

Lemma leads_bind {A B} (m : M A) (k : A -> M B) :
  leads m -> (forall a, leads (k a)) -> leads (bind m k).
Proof.
  intros Hm Hk st. unfold bind. specialize (Hm st).
  destruct (m st) as [[a|e] st']; simpl in *; [|exact Hm].
  eapply reaches_trans; [exact Hm|apply Hk].
Qed.

Lemma leads_try_except {A} (m : M A) (h : exn -> M A) :
  leads m -> (forall e, leads (h e)) -> leads (try_except m h).
Proof.
  intros Hm Hh st. unfold try_except. specialize (Hm st).
  destruct (m st) as [[a|e] st']; simpl in *; [exact Hm|].
  eapply reaches_trans; [exact Hm|apply Hh].
Qed.

Lemma leads_store_call {A} w op (f : Database -> A * Database) :
  leads (store_call w op f).
Proof.
  intros st. unfold store_call.
  destruct (store_fault w op); simpl; [apply reaches_refl|].
  destruct (f (database st)); simpl. apply reaches_store.
Qed.

Lemma leads_ensure_db : leads _ensure_db.
Proof. intros st. unfold _ensure_db. destruct (db_ready st); apply reaches_refl. Qed.

Lemma leads_current_user w c : leads (current_user_dependency w c).
Proof. intros st. apply reaches_refl. Qed.

Lemma leads_get_or_create_agent tag : leads (_get_or_create_agent tag).
Proof.
  intros st. destruct (agent_cache st !! tag) as [a|] eqn:Hc.
  - rewrite (resolve_cached _ _ _ Hc). apply reaches_refl.
  - rewrite (resolve_absent _ _ Hc). destruct (class_of_tag tag) eqn:Hcls; simpl.
    + apply reaches_construct; assumption.
    + apply reaches_refl.
Qed.

Lemma leads_except_raise {A} (f : exn -> A) e :
  leads (except_HTTPException_raise f e).
Proof. intros st. unfold except_HTTPException_raise. destruct e; apply reaches_refl. Qed.

Lemma leads_except_Exception {A} (f : exn -> A) e : leads (except_Exception f e).
Proof. intros st. apply reaches_refl. Qed.

Ltac leads_step :=
  lazymatch goal with
  | |- leads (_get_or_create_agent _) => apply leads_get_or_create_agent
  | |- leads _ensure_db => apply leads_ensure_db
  | |- leads (current_user_dependency _ _) => apply leads_current_user
  | |- leads (store_call _ _ _) => apply leads_store_call
  | |- leads (except_HTTPException_raise _ _) => apply leads_except_raise
  | |- leads (except_Exception _ _) => apply leads_except_Exception
  | |- leads (call _) => apply leads_call
  | |- leads (ret _) => apply leads_ret
  | |- leads (raise _) => apply leads_raise
  | |- leads (bind _ _) => apply leads_bind
  | |- leads (try_except _ _) => apply leads_try_except
  | |- leads (match ?x with _ => _ end) => destruct x
  | |- leads _ => fail
  | |- _ => intro
  end.

Ltac leads_to := repeat leads_step.

Lemma handle_reaches w req st : cache_reaches st (snd (handle w req st)).
Proof.
  destruct req; simpl; rewrite snd_endpoint; revert st;
    match goal with |- forall st, cache_reaches st (snd (?m st)) => change (leads m) end.
  - unfold signup, users_find_one, users_insert_one, _hash_password. leads_to.
  - unfold login, users_find_one, _verify_password. leads_to.
  - unfold motivational_chat, chat_messages_insert_one. leads_to.
  - unfold get_daily_quote. leads_to.
  - unfold get_chat_history, chat_messages_find. leads_to.
  - unfold chat_with_agent, validate_metadata. leads_to.
  - unfold search_and_summarize, py_int. leads_to.
  - unfold get_agent_capabilities. leads_to.
Qed.

Lemma serve_all_reaches reqs st : cache_reaches st (serve_all reqs st).
Proof.
  revert st. induction reqs as [|[w req] rest IH]; intros st; simpl.
  - apply reaches_refl.
  - eapply reaches_trans; [apply handle_reaches|apply IH].
Qed.

Lemma class_of_tag_Some tag cls :
  class_of_tag tag = Some cls ->
  (tag = "search" /\ cls = SearchAgent) \/ (tag = "chat" /\ cls = ChatAgent).
Proof.
  unfold class_of_tag.
  destruct (String.eqb_spec tag "search") as [-> | _]; [intros [= <-]; auto|].
  destruct (String.eqb_spec tag "chat") as [-> | _]; [intros [= <-]; auto|].
  discriminate.
Qed.

Lemma reaches_well_formed st st' :
  cache_reaches st st' -> cache_well_formed st -> cache_well_formed st'.
Proof.
  induction 1 as [st | st d | st tag cls Hout Hcls | st1 st2 st3 _ IH1 _ IH2];
    [| | |intros Hwf; apply IH2, IH1, Hwf]; intros [Hclass Hserial].
  - split; assumption.
  - split; assumption.
  - unfold constructed_state. split; simpl.
    + intros tag' a. rewrite lookup_insert. case_decide as Htag.
      * intros [= <-]. subst tag'. simpl. split; [exact Hcls|lia].
      * intros Ha. destruct (Hclass _ _ Ha) as [Hc Hs]. split; [exact Hc|lia].
    + intros tag1 tag2 a1 a2. rewrite !lookup_insert.
      case_decide as H1; case_decide as H2; subst.
      * reflexivity.
      * intros [= <-] Ha2 Heq. simpl in Heq.
        destruct (Hclass _ _ Ha2) as [_ Hs]. lia.
      * intros Ha1 [= <-] Heq. simpl in Heq.
        destruct (Hclass _ _ Ha1) as [_ Hs]. lia.
      * apply Hserial.
Qed.

Lemma lifespan_state_well_formed d : cache_well_formed (lifespan_state d).
Proof.
  split; simpl.
  - intros tag a. rewrite lookup_empty. discriminate.
  - intros tag1 tag2 a1 a2. rewrite lookup_empty. discriminate.
Qed.

(** X12.  In every state the service reaches after startup, a cached
    agent is of the class of its tag ("chat" holds a chat agent, "search"
    a search agent, and no other tag is cached), no two tags share an
    agent object, and at most two agents have ever been constructed. *)
Theorem agent_cache_stays_well_formed (d : Database) (reqs : list (World * Request)) :
  cache_well_formed (serve_all reqs (lifespan_state d))
  /\ (forall tag a,
        agent_cache (serve_all reqs (lifespan_state d)) !! tag = Some a ->
        (tag = "search" /\ agent_class a = SearchAgent)
        \/ (tag = "chat" /\ agent_class a = ChatAgent))
  /\ (constructed (serve_all reqs (lifespan_state d)) <= 2)%nat.
Proof.
  set (st := serve_all reqs (lifespan_state d)).
  assert (Hwf : cache_well_formed st).
  { eapply reaches_well_formed; [apply serve_all_reaches|].
    apply lifespan_state_well_formed. }
  assert (Htags : forall tag a, agent_cache st !! tag = Some a ->
            (tag = "search" /\ agent_class a = SearchAgent)
            \/ (tag = "chat" /\ agent_class a = ChatAgent)).
  { intros tag a Ha. destruct Hwf as [Hclass _].
    destruct (Hclass _ _ Ha) as [Hc _]. apply class_of_tag_Some. exact Hc. }
  split; [exact Hwf|]. split; [exact Htags|].
  assert (Hsize : one_handle_per_tag st).
  { apply (serve_all_grows reqs (lifespan_state d)).
    unfold one_handle_per_tag. simpl. apply map_size_empty. }
  unfold one_handle_per_tag in Hsize. rewrite <- Hsize, <- size_dom.
  assert (Hdom : dom (agent_cache st) ⊆ ({["search"; "chat"]} : gset string)).
  { intros tag Htag. apply elem_of_dom in Htag as [a Ha].
    apply elem_of_union.
    destruct (Htags _ _ Ha) as [[-> _] | [-> _]]; [left|right];
      apply elem_of_singleton; reflexivity. }
  apply subseteq_size in Hdom. etrans; [exact Hdom|].
  vm_compute. lia.
Qed.

Lemma agent_cache_stays_well_formed_witness :
  ("chat" = "search" /\ agent_class {| agent_class := ChatAgent; serial := 1 |} = SearchAgent)
  \/ ("chat" = "chat" /\ agent_class {| agent_class := ChatAgent; serial := 1 |} = ChatAgent).
Proof.
  destruct (agent_cache_stays_well_formed {| users := []; chat_messages := [] |}
              [(sample_world, Capabilities)]) as (_ & Htags & _).
  apply (Htags "chat" {| agent_class := ChatAgent; serial := 1 |}).
  vm_compute. reflexivity.
Defined.

(** X13.  In every state the service reaches after startup, generic agent
    chat with an agent type other than "chat" and "search" is answered
    with status 400, naming the type, and leaves the state, the cache
    included, as it was. *)
Theorem unknown_agent_type_always_400 (d : Database) (reqs : list (World * Request))
    (w : World) (chat_request : ChatRequest.t) :
  ChatRequest.agent_type chat_request <> "chat" ->
  ChatRequest.agent_type chat_request <> "search" ->
  handle w (AgentChat chat_request) (serve_all reqs (lifespan_state d)) =
    (HttpError 400
       ("Unknown agent type '" +:+ ChatRequest.agent_type chat_request +:+ "'"),
     serve_all reqs (lifespan_state d)).
Proof.
  intros Hchat Hsearch.
  set (st := serve_all reqs (lifespan_state d)).
  assert (Hwf : cache_well_formed st).
  { eapply reaches_well_formed; [apply serve_all_reaches|].
    apply lifespan_state_well_formed. }
  assert (Hcls : class_of_tag (ChatRequest.agent_type chat_request) = None).
  { unfold class_of_tag.
    destruct (String.eqb_spec (ChatRequest.agent_type chat_request) "search");
      [contradiction|].
    destruct (String.eqb_spec (ChatRequest.agent_type chat_request) "chat");
      [contradiction|reflexivity]. }
  assert (Hout : agent_cache st !! ChatRequest.agent_type chat_request = None).
  { destruct (agent_cache st !! ChatRequest.agent_type chat_request) as [a|] eqn:Ha;
      [|reflexivity].
    destruct Hwf as [Hclass _]. destruct (Hclass _ _ Ha) as [Hc _]. congruence. }
  simpl. unfold endpoint, chat_with_agent. unfold_m.
  rewrite (resolve_absent _ _ Hout), Hcls. reflexivity.
Qed.

Lemma unknown_agent_type_always_400_witness :
  fst (handle sample_world unknown_type_request
         (serve_all [(sample_world, Capabilities)] (lifespan_state
            {| users := []; chat_messages := [] |})))
  = HttpError 400 "Unknown agent type 'math'".
Proof.
  unfold unknown_type_request.
  rewrite (unknown_agent_type_always_400 {| users := []; chat_messages := [] |}
             [(sample_world, Capabilities)] sample_world
             {| ChatRequest.message := "hello"; ChatRequest.agent_type := "math";
                ChatRequest.context := None |}).
  - reflexivity.
  - discriminate.
  - discriminate.
Defined.

(** ** Startup *)

Lemma serve_all_db_ready reqs st : db_ready (serve_all reqs st) = db_ready st.
Proof. apply (serve_all_grows reqs st). Qed.

Lemma not_set_false value :
  not_set value = false -> exists s, value = Some s /\ s <> "".
Proof.
  destruct value as [s|]; simpl; [|discriminate].
  destruct (String.eqb_spec s "") as [-> | Hs]; [discriminate|]. eauto.
Qed.

(** X14.  Startup succeeds only when both MONGO_URL and DB_NAME have a
    non-empty value, and after a successful startup no request, served
    after any others, is ever answered with the 503 of an unset database
    handle.  When a variable is missing or empty, startup fails with an
    error that lists the missing names. *)
Theorem startup_guards_the_database (mongo_url db_name : option string)
    (d : Database) :
  (forall st,
     lifespan mongo_url db_name d = Ok st ->
     (exists url name,
        mongo_url = Some url /\ url <> "" /\ db_name = Some name /\ name <> "")
     /\ forall reqs w req detail,
          fst (handle w req (serve_all reqs st)) <> HttpError 503 detail)
  /\ (missing_variables mongo_url db_name <> [] ->
      lifespan mongo_url db_name d =
        Raise (Exception ("Missing required environment variables: "
                          +:+ join ", " (missing_variables mongo_url db_name)))).
Proof.
  unfold lifespan. split.
  - intros st.
    destruct (not_set mongo_url) eqn:Hm; [discriminate|].
    destruct (not_set db_name) eqn:Hn; [discriminate|]. simpl. intros [= <-].
    destruct (not_set_false _ Hm) as (url & -> & Hurl).
    destruct (not_set_false _ Hn) as (name & -> & Hname).
    split; [eauto 10|].
    intros reqs w req detail Hh. apply handle_error_inv in Hh.
    inversion Hh as [req' cr status dt Hcr Ha | r Hc Hcls | req' cr u Hg Hcr Ha Hd];
      subst.
    + destruct (authenticate_raises _ _ _ Ha) as [[=] | [[=] | [=]]].
    + rewrite serve_all_db_ready in Hd. discriminate.
  - unfold missing_variables. intros Hmissing.
    destruct (not_set mongo_url) eqn:Hm; [reflexivity|].
    destruct (not_set db_name) eqn:Hn; [reflexivity|].
    exfalso. apply Hmissing. simpl.
    rewrite filter_cons_False by (simpl; congruence).
    rewrite filter_cons_False by (simpl; congruence). reflexivity.
Qed.

Lemma startup_guards_the_database_witness :
  fst (handle sample_world sample_chat_request
         (serve_all [(sample_world, Capabilities)] initial_state))
  <> HttpError 503 "Database not ready".
Proof.
  destruct (startup_guards_the_database (Some "mongodb://localhost:27017")
              (Some "test") {| users := []; chat_messages := [] |}) as [Hok _].
  destruct (Hok initial_state) as [_ Hno].
  - reflexivity.
  - apply Hno.
Defined.

Example lifespan_without_variables :
  lifespan None (Some "") {| users := []; chat_messages := [] |} =
    Raise (Exception "Missing required environment variables: MONGO_URL, DB_NAME").
Proof. reflexivity. Qed.

(** ** The status endpoints *)

(** X15.  With the database handle set and the store answering, creating
    a status check returns a check with the client's name and appends it
    to the collection; the listing then ends with it as long as fewer than
    1000 checks were stored before, and otherwise still returns only the
    first 1000, without the new one. *)
Theorem status_check_round_trip (w : World) (input : StatusCheckCreate.t)
    (st : AppState) (status_checks : list StatusCheck.t) :
  db_ready st = true ->
  exists created,
    create_status_check w None input st status_checks
    = (Ok created, (status_checks ++ [created])%list)
    /\ StatusCheck.client_name created = StatusCheckCreate.client_name input
    /\ ((length status_checks < 1000)%nat ->
        get_status_checks None st (status_checks ++ [created])%list
        = Ok (status_checks ++ [created])%list)
    /\ ((1000 <= length status_checks)%nat ->
        get_status_checks None st (status_checks ++ [created])%list
        = Ok (take 1000 status_checks)).
Proof.
  intros Hd. unfold create_status_check, get_status_checks, _ensure_db.
  rewrite Hd. simpl. eexists. split; [reflexivity|]. split; [reflexivity|].
  split; intros Hlen.
  - rewrite take_ge; [reflexivity|]. rewrite length_app. simpl. lia.
  - rewrite take_app_le by exact Hlen. reflexivity.
Qed.

Lemma status_check_round_trip_witness :
  get_status_checks None initial_state
    (snd (create_status_check sample_world None
            {| StatusCheckCreate.client_name := "web" |} initial_state []))
  = Ok [{| StatusCheck.id := "id-1"; StatusCheck.client_name := "web";
           StatusCheck.timestamp := 1000 |}].
Proof.
  destruct (status_check_round_trip sample_world
              {| StatusCheckCreate.client_name := "web" |} initial_state [])
    as (created & Hcreate & _ & Hlist & _).
  - reflexivity.
  - rewrite Hcreate. cbn [snd]. rewrite Hlist by (simpl; lia).
    injection Hcreate as <-. reflexivity.
Defined.

(** X16.  The status endpoints have no catch-all clause: an unset
    database handle is answered with status 503 and a failure of the store
    with status 500, and in both cases nothing is stored. *)
Theorem status_endpoints_surface_failures (w : World) (fault : option string)
    (input : StatusCheckCreate.t) (st : AppState)
    (status_checks : list StatusCheck.t) :
  (db_ready st = false ->
   status_code (fst (create_status_check w fault input st status_checks)) = 503
   /\ status_code (get_status_checks fault st status_checks) = 503)
  /\ (db_ready st = true -> fault <> None ->
      status_code (fst (create_status_check w fault input st status_checks)) = 500
      /\ status_code (get_status_checks fault st status_checks) = 500)
  /\ (status_code (fst (create_status_check w fault input st status_checks)) <> 200 ->
      snd (create_status_check w fault input st status_checks) = status_checks).
Proof.
  unfold create_status_check, get_status_checks, _ensure_db.
  destruct (db_ready st); simpl.
  - split; [discriminate|]. split.
    + intros _ Hfault. destruct fault; [split; reflexivity|contradiction].
    + destruct fault; simpl; [reflexivity|contradiction].
  - split; [split; reflexivity|]. split; [discriminate|reflexivity].
Qed.

Lemma status_endpoints_surface_failures_witness :
  status_code (fst (create_status_check sample_world (Some "store unavailable")
                      {| StatusCheckCreate.client_name := "web" |}
                      initial_state [])) = 500.
Proof.
  destruct (status_endpoints_surface_failures sample_world (Some "store unavailable")
              {| StatusCheckCreate.client_name := "web" |} initial_state [])
    as (_ & Hfault & _).
  destruct Hfault as [Hcreate _].
  - reflexivity.
  - discriminate.
  - exact Hcreate.
Defined.

(** ** Chat history, continued *)

(** X17.  For an authenticated identity, with the store answering, the
    history operation returns exactly min(50, n) records, where n is the
    number of records the identity owns; when n is at most 50 the returned
    sequence is a rearrangement of all of them, so that no record is
    lost or repeated. *)
Theorem chat_history_is_complete (w : World) (credentials : option jwt.Token)
    (current_user : jwt.Payload) (st : AppState) :
  authenticate w credentials = Ok current_user ->
  db_ready st = true ->
  store_fault w ChatMessagesFind = None ->
  exists messages,
    fst (handle w (ChatHistory credentials) st) =
      Http200 (HistoryBody
        {| HistoryResponse.success := true;
           HistoryResponse.messages := Some messages;
           HistoryResponse.error := None |})
    /\ length messages
       = min 50 (length (owned_records (jwt.user_id current_user) (database st)))
    /\ ((length (owned_records (jwt.user_id current_user) (database st)) <= 50)%nat ->
        messages ≡ₚ owned_records (jwt.user_id current_user) (database st)).
Proof.
  intros Ha Hd Hfault. rewrite chat_history_fst, Ha, Hd, Hfault.
  eexists. split; [reflexivity|]. unfold history_page, owned_records.
  pose proof (merge_sort_Permutation newest_first
                (filter (fun m => ChatMessage.user_id m = jwt.user_id current_user)
                   (chat_messages (database st)))) as Hperm.
  split.
  - rewrite length_take, (Permutation_length Hperm). reflexivity.
  - intros Hlen. rewrite take_ge; [exact Hperm|].
    rewrite (Permutation_length Hperm). exact Hlen.
Qed.

Lemma chat_history_is_complete_witness :
  exists messages,
    fst (handle (world_at 4600) (ChatHistory (Some sample_token)) populated_state) =
      Http200 (HistoryBody
        {| HistoryResponse.success := true;
           HistoryResponse.messages := Some messages;
           HistoryResponse.error := None |})
    /\ length messages = 2%nat.
Proof.
  destruct (chat_history_is_complete (world_at 4600) (Some sample_token)
              {| jwt.user_id := "id-1"; jwt.username := "alice"; jwt.exp := 605800 |}
              populated_state) as (messages & Hresp & Hlen & _).
  - vm_compute. reflexivity.
  - reflexivity.
  - reflexivity.
  - exists messages. split; [exact Hresp|]. rewrite Hlen. vm_compute. reflexivity.
Defined.

(** ** Composition of requests *)

Lemma store_is_append_only_users reqs st :
  users (database st) `prefix_of` users (database (serve_all reqs st)).
Proof.
  revert st. induction reqs as [|[w req] rest IH]; intros st; simpl.
  - reflexivity.
  - destruct (store_effect_prefix _ _ _ _ (handle_store_effect w req st)) as [Hu _].
    etrans; [exact Hu|apply IH].
Qed.




Lemma signup_conflict w user st existing :
  db_ready st = true ->
  store_fault w UsersFindByUsername = None ->
  existing ∈ users (database st) ->
  UserDoc.username existing = UserSignup.username user ->
  handle w (Signup user) st =
    (Http200 (AuthBody
       {| AuthResponse.success := false; AuthResponse.token := None;
          AuthResponse.username := None;
          AuthResponse.message := Some "Username already exists" |}), st).
Proof.
  intros Hd Hfault Hin Hname.
  destruct (find_field_Some UserDoc.username _ _ _ Hin Hname) as [found Hfound].
  simpl. unfold endpoint, signup, _ensure_db, users_find_one. unfold_m.
  rewrite Hd. simpl. rewrite Hfault, Hfound. simpl.
  rewrite set_database_same. reflexivity.
Qed.

(** X19.  A username can be registered once: after a successful signup,
    and whatever requests are served afterwards, a signup with the same
    username, the store answering its lookup, is refused with "Username
    already exists" and changes nothing. *)
Theorem username_registered_once (w w2 : World) (user user2 : UserSignup.t)
    (st st' : AppState) (body : AuthResponse.t) (later : list (World * Request)) :
  signup w user st = (Ok body, st') ->
  AuthResponse.success body = true ->
  UserSignup.username user2 = UserSignup.username user ->
  store_fault w2 UsersFindByUsername = None ->
  handle w2 (Signup user2) (serve_all later st') =
    (Http200 (AuthBody
       {| AuthResponse.success := false; AuthResponse.token := None;
          AuthResponse.username := None;
          AuthResponse.message := Some "Username already exists" |}),
     serve_all later st').
Proof.
  intros Hsignup Hok Hname Hfault.
  destruct (signup_success_state _ _ _ _ _ Hsignup Hok)
    as (Hd & hashed & _ & _ & ->).
  destruct (store_is_append_only_users later
              (set_database
                 {| users := users (database st) ++ [new_user_doc w user hashed];
                    chat_messages := chat_messages (database st) |} st))
    as [more Hmore].
  apply (signup_conflict _ _ _ (new_user_doc w user hashed)).
  - rewrite serve_all_db_ready. exact Hd.
  - exact Hfault.
  - rewrite Hmore. simpl. apply elem_of_app. left. apply elem_of_app. right.
    apply list_elem_of_singleton. reflexivity.
  - simpl. symmetry. exact Hname.
Qed.

Lemma username_registered_once_witness :
  fst (handle (world_at 3000) (Signup sample_signup)
         (serve_all [(world_at 2000, Capabilities)]
            (snd (signup sample_world sample_signup initial_state))))
  = Http200 (AuthBody
      {| AuthResponse.success := false; AuthResponse.token := None;
         AuthResponse.username := None;
         AuthResponse.message := Some "Username already exists" |}).
Proof.
  rewrite (username_registered_once sample_world (world_at 3000) sample_signup
             sample_signup initial_state
             (snd (signup sample_world sample_signup initial_state))
             {| AuthResponse.success := true;
                AuthResponse.token := Some (_create_token sample_world "id-1" "alice");
                AuthResponse.username := Some "alice";
                AuthResponse.message := Some "Account created successfully" |}
             [(world_at 2000, Capabilities)]).
  - reflexivity.
  - vm_compute. reflexivity.
  - reflexivity.
  - reflexivity.
  - reflexivity.
Defined.

(** ** Signups that overlap *)

(** Cutting [signup] after its lookups and resuming it is [signup]. *)
Lemma signup_in_two_steps w user st :
  signup_resume w user (fst (signup_lookups w user st))
    (snd (signup_lookups w user st))
  = signup w user st.
Proof.
  unfold signup_resume, signup_lookups, signup, signup_insert, signup_failed,
    _ensure_db, users_find_one, users_insert_one, _hash_password.
  unfold_m. simpl. case_world; reflexivity.
Qed.

Lemma signup_lookups_pass w user st :
  db_ready st = true ->
  store_fault w UsersFindByUsername = None ->
  store_fault w UsersFindByEmail = None ->
  (forall doc, doc ∈ users (database st) ->
               UserDoc.username doc <> UserSignup.username user) ->
  (forall doc, doc ∈ users (database st) ->
               UserDoc.email doc <> UserSignup.email user) ->
  signup_lookups w user st = (Ok None, st).
Proof.
  intros Hd Hf1 Hf2 Hname Hemail.
  unfold signup_lookups, _ensure_db, users_find_one. unfold_m.
  rewrite Hd. simpl.
  rewrite Hf1, (field_absent_find_None UserDoc.username _ _ Hname). simpl.
  rewrite Hf2, (field_absent_find_None UserDoc.email _ _ Hemail). simpl.
  rewrite !set_database_same. reflexivity.
Qed.

Lemma signup_insert_succeeds w user hashed st :
  bcrypt_hashpw w (UserSignup.password user) = Returns hashed ->
  store_fault w UsersInsertOne = None ->
  signup_resume w user (Ok None) st =
    (Ok (account_created w user),
     set_database
       {| users := users (database st) ++ [new_user_doc w user hashed];
          chat_messages := chat_messages (database st) |} st).
Proof.
  intros Hhash Hfault.
  unfold signup_resume, signup_insert, _hash_password, users_insert_one. unfold_m.
  rewrite Hhash. simpl. rewrite Hfault. reflexivity.
Qed.

(** X2.  Served one after the other, requests keep usernames and emails
    unique across the stored identities.  The check is not atomic with the
    insertion: when two signups for the same free username both complete
    their lookups before either inserts, both are answered "Account
    created successfully", each with a token, and two identities with
    that username are stored. *)
Theorem uniqueness_needs_signups_not_to_overlap (wa wb : World)
    (ua ub : UserSignup.t) (ha hb : string) (st : AppState)
    (reqs : list (World * Request)) :
  (users_unique (database st) -> users_unique (database (serve_all reqs st)))
  /\ (forall w user st0,
        signup_resume w user (fst (signup_lookups w user st0))
          (snd (signup_lookups w user st0))
        = signup w user st0)
  /\ (db_ready st = true ->
      (forall op, store_fault wa op = None) ->
      (forall op, store_fault wb op = None) ->
      (forall doc, doc ∈ users (database st) ->
                   UserDoc.username doc <> UserSignup.username ua) ->
      (forall doc, doc ∈ users (database st) ->
                   UserDoc.email doc <> UserSignup.email ua
                   /\ UserDoc.email doc <> UserSignup.email ub) ->
      UserSignup.username ub = UserSignup.username ua ->
      bcrypt_hashpw wa (UserSignup.password ua) = Returns ha ->
      bcrypt_hashpw wb (UserSignup.password ub) = Returns hb ->
      exists st',
        overlapping_signups wa ua wb ub st
        = (Ok (account_created wa ua), Ok (account_created wb ub), st')
        /\ users (database st') =
             (users (database st)
                ++ [new_user_doc wa ua ha; new_user_doc wb ub hb])%list
        /\ ~ users_unique (database st')).
Proof.
  split; [|split].
  - revert st. induction reqs as [|[w req] rest IH]; intros st Huniq; simpl.
    + exact Huniq.
    + apply IH. eapply store_effect_unique; [apply handle_store_effect|exact Huniq].
  - apply signup_in_two_steps.
  - intros Hd Hfa Hfb Hname Hemail Hsame Hha Hhb.
    unfold overlapping_signups.
    rewrite (signup_lookups_pass wa ua st Hd (Hfa _) (Hfa _) Hname)
      by (intros doc Hdoc; apply (Hemail doc Hdoc)).
    rewrite (signup_lookups_pass wb ub st Hd (Hfb _) (Hfb _))
      by (rewrite ?Hsame; auto; intros doc Hdoc; apply (Hemail doc Hdoc)).
    rewrite (signup_insert_succeeds wa ua ha st Hha (Hfa _)).
    rewrite (signup_insert_succeeds wb ub hb _ Hhb (Hfb _)).
    eexists. split; [reflexivity|]. simpl. split.
    + rewrite <- app_assoc. reflexivity.
    + unfold users_unique. simpl. intros [Hnames _].
      rewrite <- app_assoc, fmap_app in Hnames.
      apply NoDup_app in Hnames as (_ & _ & Hpair). simpl in Hpair.
      apply NoDup_cons in Hpair as [Hfresh _]. apply Hfresh.
      rewrite Hsame. apply list_elem_of_singleton. reflexivity.
Qed.

Lemma uniqueness_needs_signups_not_to_overlap_witness :
  exists st',
    overlapping_signups sample_world sample_signup (world_at 1001) second_signup
      initial_state
    = (Ok (account_created sample_world sample_signup),
       Ok (account_created (world_at 1001) second_signup), st')
    /\ ~ users_unique (database st').
Proof.
  destruct (uniqueness_needs_signups_not_to_overlap sample_world (world_at 1001)
              sample_signup second_signup "hash:testpass123" "hash:other"
              initial_state []) as (_ & _ & Hrace).
  destruct Hrace as (st' & Hrun & _ & Hdup).
  - reflexivity.
  - reflexivity.
  - reflexivity.
  - intros doc Hdoc. apply elem_of_nil in Hdoc. destruct Hdoc.
  - intros doc Hdoc. apply elem_of_nil in Hdoc. destruct Hdoc.
  - reflexivity.
  - reflexivity.
  - reflexivity.
  - exists st'. split; [exact Hrun|exact Hdup].
Defined.
